(** * silx GUI geometry: profile extraction and procedural meshes

    Shallow embedding of the algorithmic parts of
    - [silx/gui/plot/PlotTools.py]  ([PositionInfo], [ProfileToolBar]) and
    - [silx/gui/plot3d/items/mesh.py] ([Mesh], [_CylindricalVolume], [Box],
      [Cylinder], [Hexagon]).

    Conventions.  Python integers are [Z].  Python floats that are only
    added, multiplied, divided, compared and truncated are exact rationals
    [Q] (pixel values, plot coordinates); the float32 rounding of numpy is
    not modelled.  The mesh generator needs [sqrt], [arcsin], [cos] and
    [sin], so its floats are real numbers [R].  A Python exception is a
    value [Err e] of the [result] type. *)

From Stdlib Require Import ZArith QArith Qabs Qround List Bool String Lia.
From Stdlib Require Import Reals Lra.
Import ListNotations.

(** ** Python and numpy primitives *)

Module Py.

Inductive exn : Type :=
| AssertionError
| ZeroDivisionError
| ValueError
| AttributeError
| UserError (msg : string).

Inductive result (A : Type) : Type :=
| Ok (a : A)
| Err (e : exn).
Arguments Ok {A} a.
Arguments Err {A} e.

Definition bind {A B : Type} (r : result A) (k : A -> result B) : result B :=
  match r with
  | Ok a => k a
  | Err e => Err e
  end.

Definition assert (b : bool) : result unit :=
  if b then Ok tt else Err AssertionError.

Notation "x <- r ;; k" := (bind r (fun x => k))
  (at level 61, r at next level, right associativity).
Notation "r ;;; k" := (bind r (fun _ => k))
  (at level 61, right associativity).

(** [int(x)] on a float: truncation toward zero. *)
Definition int_of_float (x : Q) : Z := Z.quot (Qnum x) (Zpos (Qden x)).

(** True division of floats; a zero divisor raises. *)
Definition truediv (a b : Q) : result Q :=
  if Qeq_bool b 0 then Err ZeroDivisionError else Ok (a / b)%Q.

(** A float32 sample of a profile: a number, or the [nan] numpy returns
    for the mean of an empty slice. *)
Inductive sample : Type :=
| Val (q : Q)
| NaN.

(** A 2D [numpy.ndarray]: its [shape] and its items. *)
Record ndarray2 : Type := mkArray {
  shape0 : nat;
  shape1 : nat;
  item : nat -> nat -> Q
}.

(** The array literal [numpy.array(rows)] of [len(rows)] rows of [w] items. *)
Definition of_rows (w : nat) (rows : list (list Q)) : ndarray2 :=
  {| shape0 := List.length rows;
     shape1 := w;
     item := fun r c => nth c (nth r rows []) 0%Q |}.

Definition transpose (a : ndarray2) : ndarray2 :=
  {| shape0 := shape1 a;
     shape1 := shape0 a;
     item := fun r c => item a c r |}.

(** Bounds [lo, hi) selected by the slice [a:b] of a sequence of [len]
    items: negative indices count from the end, everything is clipped. *)
Definition slice_index (len : nat) (i : Z) : nat :=
  if (i <? 0)%Z then Z.to_nat (Z.max 0 (i + Z.of_nat len))
  else Nat.min (Z.to_nat i) len.

Definition slice_bounds (len : nat) (a b : Z) : nat * nat :=
  let lo := slice_index len a in
  (lo, Nat.max lo (slice_index len b)).

(** [image[r0:r1, c0:c1]] *)
Definition slice2 (a : ndarray2) (r0 r1 c0 c1 : Z) : ndarray2 :=
  let '(rlo, rhi) := slice_bounds (shape0 a) r0 r1 in
  let '(clo, chi) := slice_bounds (shape1 a) c0 c1 in
  {| shape0 := rhi - rlo;
     shape1 := chi - clo;
     item := fun r c => item a (rlo + r) (clo + c) |}.

(** [image[r0:r1, :]] *)
Definition slice_rows (a : ndarray2) (r0 r1 : Z) : ndarray2 :=
  let '(rlo, rhi) := slice_bounds (shape0 a) r0 r1 in
  {| shape0 := rhi - rlo;
     shape1 := shape1 a;
     item := fun r c => item a (rlo + r) c |}.

Definition Qsum (l : list Q) : Q := fold_right Qplus 0%Q l.

(** Mean of a 1D run of items; [nan] when the run is empty. *)
Definition mean (l : list Q) : sample :=
  match l with
  | [] => NaN
  | _ => Val (Qsum l / inject_Z (Z.of_nat (List.length l)))%Q
  end.

Definition column (a : ndarray2) (c : nat) : list Q :=
  map (fun r => item a r c) (seq 0 (shape0 a)).

Definition row (a : ndarray2) (r : nat) : list Q :=
  map (fun c => item a r c) (seq 0 (shape1 a)).

(** [a.mean(axis=0)]: one mean per column. *)
Definition mean_axis0 (a : ndarray2) : list sample :=
  map (fun c => mean (column a c)) (seq 0 (shape1 a)).

(** [a.mean(axis=1)]: one mean per row. *)
Definition mean_axis1 (a : ndarray2) : list sample :=
  map (fun r => mean (row a r)) (seq 0 (shape0 a)).

Definition mean_axis (axis : Z) (a : ndarray2) : list sample :=
  if (axis =? 0)%Z then mean_axis0 a else mean_axis1 a.

(** [numpy.zeros((n,), dtype=numpy.float32)] *)
Definition zeros (n : nat) : list sample := repeat (Val 0) n.

(** [a[lo:hi] = v] on a 1D array: the selected run must have the length
    of [v], or [v] has one item, which is broadcast. *)
Definition setslice (a : list sample) (lo hi : Z) (v : list sample)
  : result (list sample) :=
  let '(l, h) := slice_bounds (List.length a) lo hi in
  if Nat.eqb (h - l) (List.length v) then
    Ok (firstn l a ++ v ++ skipn h a)
  else
    match v with
    | [x] => Ok (firstn l a ++ repeat x (h - l) ++ skipn h a)
    | _ => Err ValueError
    end.

(** [numpy.array((a, b, c, d)) * scale + origin] *)
Definition affine4 (p : Q * Q * Q * Q) (scale origin : Q) : list Q :=
  let '(a, b, c, d) := p in
  map (fun v => v * scale + origin)%Q [a; b; c; d].

(** Item [i] of a 2-tuple, [i] being 0 or 1. *)
Definition pick {A : Type} (i : Z) (p : A * A) : A :=
  if (i =? 0)%Z then fst p else snd p.

End Py.

(** ** silx/gui/plot/PlotTools.py *)

Module PlotTools.
Import Py.

(** *** PositionInfo *)

Section PositionInfo.

(** ['%.7g' % value], the rendering of a real number. *)
Variable format_g7 : Q -> string.

(** What a converter returns: a [numbers.Real] or anything else, the
    latter given by its [str()]. *)
Inductive pyvalue : Type :=
| Real (q : Q)
| Other (s : string).

(** One entry of [self._fields]: the [QLineEdit] (its text and style
    sheet), the name and the converter, which may raise. *)
Record field : Type := mkField {
  text : string;
  styleSheet : string;
  name : string;
  func : Q -> Q -> result pyvalue
}.

(** The active curve as the plot returns it: data points, the symbol (an
    empty string when the curve has none) and the y axis. *)
Record curve : Type := mkCurve {
  points : list (Q * Q);
  symbol : string;
  yaxis : string
}.

(** The plot the widget is attached to, as far as [_plotEvent] uses it. *)
Record plot : Type := mkPlot {
  getGraphCursor : bool;
  getActiveCurve : option curve;
  dataToPixel : Q -> Q -> string -> option (Q * Q)
}.

Record widget : Type := mkWidget {
  autoSnapToActiveCurve : bool;
  fields : list field;
  log : list string
}.

Inductive event : Type :=
| MouseMoved (x y xpixel ypixel : Q)
| OtherEvent (kind : string).

Definition black : string := "color: rgb(0, 0, 0);".
Definition red : string := "color: rgb(255, 0, 0);".

(** [numpy.argmin] over the squared distances to [(x, y)]: the first point
    at minimal distance; an empty sequence raises. *)
Fixpoint closest (x y : Q) (pts : list (Q * Q)) : option (Q * Q) :=
  match pts with
  | [] => None
  | p :: rest =>
      match closest x y rest with
      | None => Some p
      | Some q =>
          let d (a : Q * Q) := ((fst a - x) * (fst a - x)
                                + (snd a - y) * (snd a - y))%Q in
          if Qle_bool (d p) (d q) then Some p else Some q
      end
  end.

Definition is_empty (s : string) : bool :=
  match s with
  | EmptyString => true
  | _ => false
  end.

(** Lines 155-185: the position to display and the style of the fields. *)
Definition snap (w : widget) (p : plot) (x y xpixel ypixel : Q)
  : result (Q * Q * string) :=
  if autoSnapToActiveCurve w && getGraphCursor p then
    match getActiveCurve p with
    | None => Ok (x, y, red)
    | Some c =>
        if is_empty (symbol c) then Ok (x, y, red)
        else
          match closest x y (points c) with
          | None => Err ValueError
          | Some (xc, yc) =>
              match dataToPixel p xc yc (yaxis c) with
              | None => Ok (x, y, red)
              | Some (xp, yp) =>
                  if Qlt_le_dec (Qabs (xp - xpixel)) 5%Q
                  then if Qlt_le_dec (Qabs (yp - ypixel)) 5%Q
                       then Ok (xp, yp, black)
                       else Ok (x, y, red)
                  else Ok (x, y, red)
              end
          end
    end
  else Ok (x, y, black).

(** Lines 199-202: the text shown for a converted value. *)
Definition display (value : pyvalue) : string :=
  match value with
  | Real v => format_g7 v
  | Other s => s
  end.

(** Body of the loop over [self._fields], lines 188-203: the result is the
    updated field and the names logged by the [except] clause. *)
Definition update_field (style : string) (x y : Q) (f : field)
  : field * list string :=
  match func f x y with
  | Err _ => (mkField "Error" style (name f) (func f), [name f])
  | Ok value => (mkField (display value) style (name f) (func f), [])
  end.

Definition update_fields (style : string) (x y : Q) (fs : list field)
  : list field * list string :=
  fold_left
    (fun acc f =>
       let '(f', l) := update_field style x y f in
       (fst acc ++ [f'], snd acc ++ l))
    fs ([], []).

Definition _plotEvent (w : widget) (p : plot) (e : event) : result widget :=
  match e with
  | MouseMoved x y xpixel ypixel =>
      pos <- snap w p x y xpixel ypixel ;;
      let '(x', y', style) := pos in
      let '(fs, l) := update_fields style x' y' (fields w) in
      Ok (mkWidget (autoSnapToActiveCurve w) fs (log w ++ l))
  | OtherEvent _ => Ok w
  end.

End PositionInfo.

(** *** ProfileToolBar *)

(** Lines 412-417 of [_alignedFullProfile]: the clipped width and the
    [start, end[ rows of the band for an image of [height] rows. *)
Definition roiStart0 (imgPos roiWidth : Z) : Z :=
  int_of_float (inject_Z imgPos + (1 # 2) - inject_Z roiWidth / 2)%Q.

Definition roiBand (height roiWidth imgPos : Z) : Z * Z * Z :=
  let roiWidth := Z.min height roiWidth in
  let start := roiStart0 imgPos roiWidth in
  let start := Z.min (Z.max 0 start) (height - roiWidth) in
  let end_ := (start + roiWidth)%Z in
  (roiWidth, start, end_).

Definition area : Type := (list Q * list Q)%type.

Definition _alignedFullProfile (image : ndarray2) (origin scale : Q * Q)
    (position : Q) (roiWidth : Z) (axis : Z) : result (list sample * area) :=
  assert ((axis =? 0)%Z || (axis =? 1)%Z) ;;;
  imgPos <- truediv (position - pick (1 - axis) origin)%Q
                    (pick (1 - axis) scale) ;;
  let imgPos := int_of_float imgPos in
  let image := if (axis =? 1)%Z then transpose image else image in
  let height := Z.of_nat (shape0 image) in
  let width := shape1 image in
  let '(roiWidth, start, end_) := roiBand height roiWidth imgPos in
  let profile :=
    if (start <? height)%Z && (end_ >? 0)%Z then
      mean_axis0 (slice_rows image (Z.max 0 start) (Z.min end_ height))
    else zeros width in
  let w := inject_Z (Z.of_nat width) in
  let profileBounds := affine4 (0%Q, w, w, 0%Q) (fst scale) (fst origin) in
  let roiBounds :=
    affine4 (inject_Z start, inject_Z start, inject_Z end_, inject_Z end_)
            (snd scale) (snd origin) in
  let area := if (axis =? 0)%Z then (profileBounds, roiBounds)
              else (roiBounds, profileBounds) in
  Ok (profile, area).

Definition _alignedPartialProfile (image : ndarray2) (rowRange colRange : Z * Z)
    (axis : Z) : result (list sample) :=
  assert ((axis =? 0)%Z || (axis =? 1)%Z) ;;;
  assert (fst rowRange <? snd rowRange)%Z ;;;
  assert (fst colRange <? snd colRange)%Z ;;;
  let height := Z.of_nat (shape0 image) in
  let width := Z.of_nat (shape1 image) in
  let profileRange := if (axis =? 0)%Z then colRange else rowRange in
  let profileLength := Z.abs (snd profileRange - fst profileRange) in
  let rowStart := Z.min (Z.max 0 (fst rowRange)) height in
  let rowEnd := Z.min (Z.max 0 (snd rowRange)) height in
  let colStart := Z.min (Z.max 0 (fst colRange)) width in
  let colEnd := Z.min (Z.max 0 (snd colRange)) width in
  let imgProfile :=
    mean_axis axis (slice2 image rowStart rowEnd colStart colEnd) in
  let profile := zeros (Z.to_nat profileLength) in
  let offset := (- Z.min 0 (fst profileRange))%Z in
  setslice profile offset (offset + Z.of_nat (List.length imgProfile))
           imgProfile.

(** [updateProfile]: what is drawn from the ROI, the spin box and the
    active image.  The labels of the curve are string renderings of floats
    and are left out. *)

Section UpdateProfile.

(** [BilinearImage(data).profile_line(start, end, width)] of
    [silx.image.bilinear] and [numpy.sqrt], both outside this module. *)
Variable profile_line : ndarray2 -> Q * Q -> Q * Q -> Z -> list sample.
Variable fsqrt : Q -> Q.

(** [lineProjectionMode] *)
Inductive projection : Type := ModeX | ModeY | ModeD.

Record toolBar : Type := mkToolBar {
  _roiInfo : option ((Q * Q) * (Q * Q) * projection);
  lineWidthSpinBox : Z;
  getActiveImage : option (ndarray2 * (Q * Q) * (Q * Q))
}.

(** [(int(v + 0.5 - 0.5 * roiWidth), int(v + 0.5 + 0.5 * roiWidth))] *)
Definition centeredRange (v roiWidth : Z) : Z * Z :=
  (int_of_float (inject_Z v + (1 # 2) - (1 # 2) * inject_Z roiWidth)%Q,
   int_of_float (inject_Z v + (1 # 2) + (1 # 2) * inject_Z roiWidth)%Q).

(** Lines 543-574: the line is aligned with one of the axes. *)
Definition alignedLineProfile (data : ndarray2) (origin scale : Q * Q)
    (startPt endPt : Q * Q) (roiWidth : Z) : result (list sample * area) :=
  let startPt := (int_of_float (fst startPt), int_of_float (snd startPt)) in
  let endPt := (int_of_float (fst endPt), int_of_float (snd endPt)) in
  let '(startPt, endPt) :=
    if (fst startPt >? fst endPt)%Z || (snd startPt >? snd endPt)%Z
    then (endPt, startPt) else (startPt, endPt) in
  let rowRange :=
    if (fst startPt =? fst endPt)%Z then centeredRange (fst startPt) roiWidth
    else (fst startPt, (fst endPt + 1)%Z) in
  let colRange :=
    if (fst startPt =? fst endPt)%Z then (snd startPt, (snd endPt + 1)%Z)
    else centeredRange (snd startPt) roiWidth in
  let axis := if (fst startPt =? fst endPt)%Z then 0%Z else 1%Z in
  profile <- _alignedPartialProfile data rowRange colRange axis ;;
  let q := inject_Z in
  Ok (profile,
      (affine4 (q (fst colRange), q (snd colRange),
                q (snd colRange), q (fst colRange))
               (fst scale) (fst origin),
       affine4 (q (fst rowRange), q (fst rowRange),
                q (snd rowRange), q (snd rowRange))
               (snd scale) (snd origin))).

(** Lines 576-617: bilinear interpolation along an oblique line. *)
Definition obliqueLineProfile (data : ndarray2) (origin scale : Q * Q)
    (startPt endPt : Q * Q) (roiWidth : Z) : list sample * area :=
  let '(startPt, endPt) :=
    if Qlt_le_dec (snd endPt) (snd startPt) then (endPt, startPt)
    else if Qeq_bool (snd startPt) (snd endPt)
         then if Qlt_le_dec (fst endPt) (fst startPt)
              then (endPt, startPt) else (startPt, endPt)
         else (startPt, endPt) in
  let half := (1 # 2)%Q in
  let profile :=
    profile_line data
      ((fst startPt - half)%Q, (snd startPt - half)%Q)
      ((fst endPt - half)%Q, (snd endPt - half)%Q) roiWidth in
  let length :=
    fsqrt ((fst endPt - fst startPt) * (fst endPt - fst startPt)
           + (snd endPt - snd startPt) * (snd endPt - snd startPt))%Q in
  let dRow := ((fst endPt - fst startPt) / length)%Q in
  let dCol := ((snd endPt - snd startPt) / length)%Q in
  let startPt := ((fst startPt - half * dRow)%Q,
                  (snd startPt - half * dCol)%Q) in
  let endPt := ((fst endPt + half * dRow)%Q, (snd endPt + half * dCol)%Q) in
  let '(dRow, dCol) := (dCol, (- dRow)%Q) in
  let w := (half * inject_Z roiWidth)%Q in
  (profile,
   (affine4 ((snd startPt - w * dCol)%Q, (snd startPt + w * dCol)%Q,
             (snd endPt + w * dCol)%Q, (snd endPt - w * dCol)%Q)
            (snd scale) (snd origin),
    affine4 ((fst startPt - w * dRow)%Q, (fst startPt + w * dRow)%Q,
             (fst endPt + w * dRow)%Q, (fst endPt - w * dRow)%Q)
            (fst scale) (fst origin))).

(** Lines 533-617: profile along a free line from [roiStart] to [roiEnd],
    both [(x, y)] in plot coordinates. *)
Definition freeLineProfile (data : ndarray2) (origin scale : Q * Q)
    (roiStart roiEnd : Q * Q) (roiWidth : Z) : result (list sample * area) :=
  r0 <- truediv (snd roiStart - snd origin)%Q (snd scale) ;;
  c0 <- truediv (fst roiStart - fst origin)%Q (fst scale) ;;
  r1 <- truediv (snd roiEnd - snd origin)%Q (snd scale) ;;
  c1 <- truediv (fst roiEnd - fst origin)%Q (fst scale) ;;
  if (int_of_float r0 =? int_of_float r1)%Z
     || (int_of_float c0 =? int_of_float c1)%Z
  then alignedLineProfile data origin scale (r0, c0) (r1, c1) roiWidth
  else Ok (obliqueLineProfile data origin scale (r0, c0) (r1, c1) roiWidth).

(** The result is [None] when nothing is drawn (no ROI or no image). *)
Definition updateProfile (tb : toolBar) : result (option (list sample * area)) :=
  match _roiInfo tb with
  | None => Ok None
  | Some (roiStart, roiEnd, lineProjectionMode) =>
      match getActiveImage tb with
      | None => Ok None
      | Some (data, origin, scale) =>
          let roiWidth := Z.max 1 (lineWidthSpinBox tb) in
          r <- match lineProjectionMode with
               | ModeX => _alignedFullProfile data origin scale
                            (snd roiStart) roiWidth 0
               | ModeY => _alignedFullProfile data origin scale
                            (fst roiStart) roiWidth 1
               | ModeD => freeLineProfile data origin scale
                            roiStart roiEnd roiWidth
               end ;;
          Ok (Some r)
      end
  end.

End UpdateProfile.

End PlotTools.

(** ** silx/gui/plot3d/items/mesh.py *)

Module MeshItems.
Import Py.
Local Open Scope R_scope.

Record vec3 : Type := mkVec { vx : R; vy : R; vz : R }.

Definition vzero : vec3 := mkVec 0 0 0.

Definition vadd (a b : vec3) : vec3 :=
  mkVec (vx a + vx b) (vy a + vy b) (vz a + vz b).

Definition vsub (a b : vec3) : vec3 :=
  mkVec (vx a - vx b) (vy a - vy b) (vz a - vz b).

(** [numpy.cross] of two 3-vectors. *)
Definition cross (a b : vec3) : vec3 :=
  mkVec (vy a * vz b - vz a * vy b)
        (vz a * vx b - vx a * vz b)
        (vx a * vy b - vy a * vx b).

Definition color : Type := list R.

(** Modelled from the spec: [primitives.Mesh3D] lives in
    [silx.gui.plot3d.scene], outside this module; it stores the buffers it
    is given and accepts only the recognized draw modes. *)
Record Mesh3D : Type := mkMesh3D {
  positionAttr : list vec3;
  colorAttr : color;
  normalAttr : option (list vec3);
  drawMode : string
}.

Definition drawModes : list string :=
  ["points"; "lines"; "line_strip"; "loop";
   "triangles"; "triangle_strip"; "fan"]%string.

(** Modelled from the spec: the constructor of [primitives.Mesh3D], which
    rejects a draw mode outside the recognized set. *)
Definition newMesh3D (position : list vec3) (c : color)
    (normal : option (list vec3)) (mode : string) : result Mesh3D :=
  assert (existsb (String.eqb mode) drawModes) ;;;
  Ok (mkMesh3D position c normal mode).

(** What the attribute [self._mesh] refers to. *)
Inductive meshRef : Type :=
| PyNone
| PyInt (n : Z)
| MeshObj (m : Mesh3D).

(** A [DataItem3D] with a mesh: the attribute [_mesh] and the children of
    its scene primitive. *)
Record item3D : Type := mkItem {
  _mesh : meshRef;
  children : list Mesh3D
}.

(** [__init__] of [Mesh] and of [_CylindricalVolume] *)
Definition init : item3D := mkItem PyNone [].

(** [position is None or len(position) == 0] *)
Definition noPosition (position : option (list vec3)) : bool :=
  match position with
  | None => true
  | Some [] => true
  | Some _ => false
  end.

Definition positions (position : option (list vec3)) : list vec3 :=
  match position with
  | None => []
  | Some l => l
  end.

Module Mesh.

Definition setData (self : item3D) (position : option (list vec3))
    (c : color) (normal : option (list vec3)) (mode : string) : result item3D :=
  let children := @nil Mesh3D in
  if noPosition position then Ok (mkItem (PyInt 0) children)
  else
    m <- newMesh3D (positions position) c normal mode ;;
    Ok (mkItem (MeshObj m) (children ++ [m])).

(** The getters test [self._mesh is None]; any other value is used as a
    mesh, and an integer has no attribute. *)
Definition getPositionData (self : item3D) : result (list vec3) :=
  match _mesh self with
  | PyNone => Ok []
  | MeshObj m => Ok (positionAttr m)
  | PyInt _ => Err AttributeError
  end.

Definition getColorData (self : item3D) : result color :=
  match _mesh self with
  | PyNone => Ok []
  | MeshObj m => Ok (colorAttr m)
  | PyInt _ => Err AttributeError
  end.

Definition getNormalData (self : item3D) : result (option (list vec3)) :=
  match _mesh self with
  | PyNone => Ok None
  | MeshObj m => Ok (normalAttr m)
  | PyInt _ => Err AttributeError
  end.

Definition getDrawMode (self : item3D) : result string :=
  match _mesh self with
  | MeshObj m => Ok (drawMode m)
  | _ => Err AttributeError
  end.

End Mesh.

Module CylindricalVolume.

(** The six corners of the sector between the angles [a0] and [a1]. *)
Record corners : Type := mkCorners {
  c1 : vec3; c2 : vec3; c3 : vec3; c4 : vec3; c5 : vec3; c6 : vec3
}.

Definition sectorCorners (radius height a0 a1 : R) : corners :=
  {| c1 := mkVec 0 0 (- height / 2);
     c2 := mkVec (radius * cos a0) (radius * sin a0) (- height / 2);
     c3 := mkVec (radius * cos a1) (radius * sin a1) (- height / 2);
     c4 := mkVec (radius * cos a0) (radius * sin a0) (height / 2);
     c5 := mkVec (radius * cos a1) (radius * sin a1) (height / 2);
     c6 := mkVec 0 0 (height / 2) |}.

(** [volume[i]] *)
Definition sectorVolume (k : corners) : list vec3 :=
  [c1 k; c3 k; c2 k;
   c2 k; c3 k; c4 k;
   c3 k; c5 k; c4 k;
   c4 k; c5 k; c6 k].

(** [normal[i]] *)
Definition sectorNormal (flatFaces : bool) (k : corners) : list vec3 :=
  let '(mkCorners c1 c2 c3 c4 c5 c6) := k in
  if flatFaces then
    [cross (vsub c3 c1) (vsub c2 c1);
     cross (vsub c2 c3) (vsub c1 c3);
     cross (vsub c1 c2) (vsub c3 c2);
     cross (vsub c3 c2) (vsub c4 c2);
     cross (vsub c4 c3) (vsub c2 c3);
     cross (vsub c2 c4) (vsub c3 c4);
     cross (vsub c5 c3) (vsub c4 c3);
     cross (vsub c4 c5) (vsub c3 c5);
     cross (vsub c3 c4) (vsub c5 c4);
     cross (vsub c5 c4) (vsub c6 c4);
     cross (vsub c6 c5) (vsub c5 c5);
     cross (vsub c4 c6) (vsub c5 c6)]
  else
    [cross (vsub c3 c1) (vsub c2 c1);
     cross (vsub c2 c3) (vsub c1 c3);
     cross (vsub c1 c2) (vsub c3 c2);
     vsub c2 c1; vsub c3 c1; vsub c4 c6;
     vsub c3 c1; vsub c5 c6; vsub c4 c6;
     cross (vsub c5 c4) (vsub c6 c4);
     cross (vsub c6 c5) (vsub c5 c5);
     cross (vsub c4 c6) (vsub c5 c6)].

(** The corners of sector [i], from [angles[i]] and [angles[i+1]]. *)
Definition sectorAt (radius height : R) (angles : list R) (i : nat) : corners :=
  sectorCorners radius height (nth i angles 0) (nth (S i) angles 0).

(** The loop [for i in range(0, len(angles) - 1)] followed by
    [reshape(-1, 3)]: the rows of all sectors, in order. *)
Definition volumeRows (radius height : R) (angles : list R) : list vec3 :=
  flat_map (fun i => sectorVolume (sectorAt radius height angles i))
           (seq 0 (List.length angles - 1)).

Definition normalRows (radius height : R) (angles : list R)
    (flatFaces : bool) : list vec3 :=
  flat_map (fun i => sectorNormal flatFaces (sectorAt radius height angles i))
           (seq 0 (List.length angles - 1)).

(** [numpy.tile(rows, (n, 1))] *)
Definition tileRows (rows : list vec3) (n : nat) : list vec3 :=
  List.concat (repeat rows n).

(** [numpy.tile(position, (1, k)).reshape((-1, 3))] *)
Definition tileEach (position : list vec3) (k : nat) : list vec3 :=
  flat_map (fun p => repeat p k) position.

(** [numpy.add(a, b, out=a)] on arrays of rows: the shapes must agree. *)
Definition addRows (a b : list vec3) : result (list vec3) :=
  if Nat.eqb (List.length a) (List.length b)
  then Ok (map (fun p => vadd (fst p) (snd p)) (combine a b))
  else Err ValueError.

Definition _setData (self : item3D) (position : option (list vec3))
    (radius height : R) (angles : list R) (c : color) (flatFaces : bool)
  : result item3D :=
  let children := @nil Mesh3D in
  if noPosition position then Ok (mkItem (PyInt 0) children)
  else
    match angles with
    | [] => Err ValueError
    | _ =>
        let position := positions position in
        let volume := volumeRows radius height angles in
        let normal := normalRows radius height angles flatFaces in
        let vertices := tileRows volume (List.length position) in
        let normals := tileRows normal (List.length position) in
        vertices <- addRows vertices
                      (tileEach position ((List.length angles - 1) * 12)) ;;
        m <- newMesh3D vertices c (Some normals) "triangles" ;;
        Ok (mkItem (MeshObj m) (children ++ [m]))
    end.

End CylindricalVolume.

Module Box.

(** Lines 283-291.  Floats are modelled by the reals: rounding is left
    out, and for [sx = sy = 0], where the code computes [0 / 0 = nan], the
    value below is not the code's.  The statements about boxes take sizes
    with [0 < sx] and [0 < sy]. *)
Definition boxAngles (size : R * R * R) : list R :=
  let '(sx, sy, sz) := size in
  let diagonal := sqrt (sx * sx + sy * sy) in
  let alpha := 2 * asin (sy / diagonal) in
  let beta := 2 * asin (sx / diagonal) in
  let phase := / 2 * alpha in
  map (fun a => a - phase)
      [0; alpha; alpha + beta; alpha + beta + alpha; 2 * PI].

(** Lines 271-296.  [numpy.atleast_2d(position)] leaves an (N, 3) array
    with [N >= 1] as it is.  An empty sequence becomes an array of shape
    (1, 0): its length is 1, so [_setData] builds the 48 rows of one box,
    and [numpy.add] cannot broadcast the empty position rows onto them. *)
Definition setData (self : item3D) (position : list vec3)
    (size : R * R * R) (c : color) : result item3D :=
  let '(sx, sy, sz) := size in
  match position with
  | [] => Err ValueError
  | _ :: _ =>
      CylindricalVolume._setData self (Some position)
        (sqrt (sx * sx + sy * sy) / 2) sz (boxAngles size) c true
  end.

End Box.

(** [numpy.linspace(start, stop, num)] *)
Definition linspace (start stop : R) (num : nat) : list R :=
  map (fun i => start + INR i * ((stop - start) / INR (num - 1)))
      (seq 0 num).

End MeshItems.


(** ** More of silx/gui/plot/PlotTools.py and silx/gui/plot3d/items/mesh.py *)

Module PositionInfo.
Import Py PlotTools.

Definition converter : Type := (string * (Q -> Q -> result pyvalue))%type.

(** [(('X', lambda x, y: x), ('Y', lambda x, y: y))] *)
Definition defaultConverters : list converter :=
  [("X"%string, fun x y => Ok (Real x)); ("Y"%string, fun x y => Ok (Real y))].

(** [__init__]: one read-only line edit showing ['------'] per converter;
    [converters=None] selects the default ones. *)
Definition __init__ (converters : option (list converter)) : widget :=
  let converters :=
    match converters with
    | None => defaultConverters
    | Some c => c
    end in
  mkWidget false
    (map (fun c => mkField "------" "" (fst c) (snd c)) converters)
    [].

Definition getConverters (w : widget) : list converter :=
  map (fun f => (name f, func f)) (fields w).

End PositionInfo.

Module MeshData.
Import Py MeshItems.

(** [Mesh.getData]: the four getters, in the order of the tuple. *)
Definition getData (self : item3D)
  : result (list vec3 * color * option (list vec3) * string) :=
  p <- Mesh.getPositionData self ;;
  c <- Mesh.getColorData self ;;
  n <- Mesh.getNormalData self ;;
  m <- Mesh.getDrawMode self ;;
  Ok (p, c, n, m).

End MeshData.

Module BoxShape.
Import MeshItems.
Local Open Scope R_scope.

(** The twelve rows of the sector between the rim points [(x0, y0)] and
    [(x1, y1)] of a volume of height [sz], in the order of [volume[i]]. *)
Definition wedge (sz : R) (s : (R * R) * (R * R)) : list vec3 :=
  let '((x0, y0), (x1, y1)) := s in
  let c1 := mkVec 0 0 (- sz / 2) in
  let c2 := mkVec x0 y0 (- sz / 2) in
  let c3 := mkVec x1 y1 (- sz / 2) in
  let c4 := mkVec x0 y0 (sz / 2) in
  let c5 := mkVec x1 y1 (sz / 2) in
  let c6 := mkVec 0 0 (sz / 2) in
  [c1; c3; c2; c2; c3; c4; c3; c5; c4; c4; c5; c6].

(** The rows of a box of size [(sx, sy, sz)] centred at the origin: four
    sectors, each between two neighbouring corners of the rectangle
    [-sx/2, sx/2] x [-sy/2, sy/2], starting at [(sx/2, -sy/2)]. *)
Definition boxRows (sx sy sz : R) : list vec3 :=
  flat_map (wedge sz)
    [((sx / 2, - (sy / 2)), (sx / 2, sy / 2));
     ((sx / 2, sy / 2), (- (sx / 2), sy / 2));
     ((- (sx / 2), sy / 2), (- (sx / 2), - (sy / 2)));
     ((- (sx / 2), - (sy / 2)), (sx / 2, - (sy / 2)))].

End BoxShape.

(** ** silx/gui/plot/tools/CurveLegendsWidget.py *)

Module CurveLegends.

(** The one exception these methods raise by themselves. *)
Inductive raised : Type :=
| NameError (name : string).

(** A curve of the plot, as far as the legend widgets read it. *)
Record curve : Type := mkCurve {
  getLegend : string;
  isVisible : bool;
  isHighlighted : bool
}.

(** A [PlotWidget]: the legends of its curves and the curve of a legend. *)
Record plotWidget : Type := mkPlot {
  getAllCurves : list string;
  getCurve : string -> option curve
}.

(** The plots that are alive, by identity; a weak reference to a plot
    that is gone gives [None]. *)
Definition heap : Type := nat -> option plotWidget.

(** [_LegendWidget]: the curve of its icon, the text and style sheet of its
    label, its visibility, and whether it still has a parent. *)
Record legendWidget : Type := mkLegendWidget {
  iconCurve : option curve;
  labelText : string;
  labelStyleSheet : string;
  visible : bool;
  hasParent : bool
}.

(** [_LegendWidget._update] *)
Definition _update (w : legendWidget) : legendWidget * list string :=
  match iconCurve w with
  | None =>
      (mkLegendWidget (iconCurve w) (labelText w) (labelStyleSheet w)
                      false (hasParent w),
       ["Curve no more exists"%string])
  | Some c =>
      (mkLegendWidget (iconCurve w) (labelText w)
         (if isHighlighted c then "border: 1px solid black"%string
          else ""%string)
         (isVisible c) (hasParent w),
       [])
  end.

(** [_LegendWidget.__init__(parent, curve)] *)
Definition newLegendWidget (c : curve) : legendWidget :=
  fst (_update (mkLegendWidget (Some c) (getLegend c) "" true true)).

(** [CurveLegendsWidget]: the dict [_legends] in insertion order, the weak
    reference to the plot, whether [_plotContentChanged] is connected to
    that plot, the widgets of the layout and the messages logged. *)
Record widget : Type := mkWidget {
  _legends : list (string * legendWidget);
  _plotRef : option nat;
  connected : bool;
  layoutWidgets : list legendWidget;
  log : list string
}.

(** [__init__] *)
Definition init : widget := mkWidget [] None false [] [].

Definition getPlotWidget (h : heap) (self : widget) : option plotWidget :=
  match _plotRef self with
  | None => None
  | Some ref => h ref
  end.

(** [legend in self._legends] *)
Definition hasLegend (legend : string) (d : list (string * legendWidget))
  : bool :=
  existsb (fun kv => String.eqb (fst kv) legend) d.

(** [self._legends.pop(legend, None)]: the value and the remaining dict. *)
Fixpoint pop (legend : string) (d : list (string * legendWidget))
  : option legendWidget * list (string * legendWidget) :=
  match d with
  | [] => (None, [])
  | kv :: rest =>
      if String.eqb (fst kv) legend then (Some (snd kv), rest)
      else let '(v, rest') := pop legend rest in (v, kv :: rest')
  end.

Definition keys (d : list (string * legendWidget)) : list string :=
  map fst d.

Definition _addLegend (h : heap) (self : widget) (legend : string) : widget :=
  if hasLegend legend (_legends self) then self
  else
    match getPlotWidget h self with
    | None => self
    | Some plot =>
        match getCurve plot legend with
        | None =>
            mkWidget (_legends self) (_plotRef self) (connected self)
                     (layoutWidgets self)
                     (log self ++ [("Curve not found: " ++ legend)%string])
        | Some c =>
            let w := newLegendWidget c in
            mkWidget (_legends self ++ [(legend, w)]) (_plotRef self)
                     (connected self) (layoutWidgets self ++ [w]) (log self)
        end
    end.

(** [_removeLegend]: the state it leaves and the exception, if any. *)
Definition _removeLegend (self : widget) (legend : string)
  : widget * option raised :=
  let '(w, d) := pop legend (_legends self) in
  match w with
  | None =>
      (mkWidget d (_plotRef self) (connected self) (layoutWidgets self)
                (log self ++ [("Unknown legend: " ++ legend)%string]),
       None)
  | Some _ =>
      (mkWidget d (_plotRef self) (connected self) (layoutWidgets self)
                (log self),
       Some (NameError "idget"))
  end.

Definition _plotContentChanged (h : heap) (self : widget)
    (action kind legend : string) : widget * option raised :=
  if negb (String.eqb kind "curve") then (self, None)
  else
    match getPlotWidget h self with
    | None =>
        (mkWidget (_legends self) (_plotRef self) (connected self)
                  (layoutWidgets self)
                  (log self ++ ["No PlotWidget attached"%string]),
         None)
    | Some _ =>
        if String.eqb action "add" then (_addLegend h self legend, None)
        else _removeLegend self legend
    end.

(** The loop [for legend in ...: self._removeLegend(legend)], left at the
    first exception. *)
Fixpoint removeAll (self : widget) (legends : list string)
  : widget * option raised :=
  match legends with
  | [] => (self, None)
  | legend :: rest =>
      match _removeLegend self legend with
      | (self', None) => removeAll self' rest
      | (self', Some e) => (self', Some e)
      end
  end.

Definition setPlotWidget (h : heap) (self : widget) (plot : option nat)
  : widget * option raised :=
  let '(self, e) :=
    match getPlotWidget h self with
    | None => (self, None)
    | Some _ =>
        removeAll (mkWidget (_legends self) (_plotRef self) false
                            (layoutWidgets self) (log self))
                  (keys (_legends self))
    end in
  match e with
  | Some e => (self, Some e)
  | None =>
      let self := mkWidget (_legends self) plot (connected self)
                           (layoutWidgets self) (log self) in
      match plot with
      | None => (self, None)
      | Some ref =>
          match h ref with
          | None => (self, None)
          | Some p =>
              (fold_left (_addLegend h)
                 (getAllCurves p)
                 (mkWidget (_legends self) (_plotRef self) true
                           (layoutWidgets self) (log self)),
               None)
          end
      end
  end.

End CurveLegends.

(** * The properties under study, as stated in the specification *)

Module Spec.
Import Py PlotTools.
Local Open Scope Z_scope.

(** Rows [start, end[ of the band as requested, before clamping. *)
Definition requestedBand (height roiWidth imgPos : Z) : Z * Z :=
  let w := Z.min height roiWidth in
  (roiStart0 imgPos w, roiStart0 imgPos w + w).

(** The rows [start, end[ miss an image of [height] rows. *)
Definition outsideImage (height : Z) (band : Z * Z) : bool :=
  (height <=? fst band) || (snd band <=? 0).

(** "For a ROI entirely outside the image bounds, the returned profile is
    all-zero and has the same length as the in-bounds case." *)
Definition zero_profile_outside_image : Prop :=
  forall (image : ndarray2) (origin scale : Q * Q) (position : Q)
         (roiWidth axis : Z),
    axis = 0 \/ axis = 1 ->
    Qeq_bool (pick (1 - axis) scale) 0 = false ->
    let img := if axis =? 1 then transpose image else image in
    let height := Z.of_nat (shape0 img) in
    let imgPos := int_of_float ((position - pick (1 - axis) origin)
                                / pick (1 - axis) scale) in
    outsideImage height (requestedBand height roiWidth imgPos) = true ->
    exists a : area,
      _alignedFullProfile image origin scale position roiWidth axis =
        Ok (zeros (shape1 img), a).

(** [round(x)]: the nearest integer, a tie going to the even one. *)
Definition round (x : Q) : Z :=
  let f := Qfloor x in
  match ((x - inject_Z f) ?= (1 # 2))%Q with
  | Lt => f
  | Gt => f + 1
  | Eq => if Z.even f then f else f + 1
  end.

(** [v] clamped to [[lo, hi]]. *)
Definition clamp (lo hi v : Z) : Z := Z.min (Z.max lo v) hi.

(** "[width] clamped to [[1, extent]]; [start = round(idx + 0.5 - width/2)],
    then clamped to [[0, extent - width]], [end = start + width]." *)
Definition specifiedBand (extent roiWidth : Z) (idx : Q) : Z * Z * Z :=
  let width := clamp 1 extent roiWidth in
  let start := round (idx + (1 # 2) - inject_Z width / 2)%Q in
  let start := clamp 0 (extent - width) start in
  (width, start, start + width).

Definition band_as_specified : Prop :=
  forall (extent roiWidth : Z) (idx : Q),
    1 <= extent -> 1 <= roiWidth ->
    roiBand extent roiWidth (int_of_float idx) =
      specifiedBand extent roiWidth idx.

(** "Degenerate input ([rowRange[0] >= rowRange[1]], zero-length line) is
    rejected with an error, not a computed result." *)
Definition degenerate_input_rejected : Prop :=
  (forall (image : ndarray2) (rowRange colRange : Z * Z) (axis : Z),
      snd rowRange <= fst rowRange \/ snd colRange <= fst colRange ->
      exists e, _alignedPartialProfile image rowRange colRange axis = Err e)
  /\
  (forall profile_line fsqrt (data : ndarray2) (origin scale : Q * Q)
          (p : Q * Q) (roiWidth : Z),
      exists e,
        freeLineProfile profile_line fsqrt data origin scale p p roiWidth
        = Err e).

(** [v] clipped to the indices [0 .. n] of an axis of [n] items. *)
Definition clip (n : nat) (v : Z) : nat :=
  Z.to_nat (Z.min (Z.max 0 v) (Z.of_nat n)).

(** Means over the intersection of the ROI with the image, one per column
    of the intersection ([axis = 0]) or one per row ([axis = 1]). *)
Definition intersectionMeans (image : ndarray2) (rowRange colRange : Z * Z)
    (axis : Z) : list sample :=
  let r0 := clip (shape0 image) (fst rowRange) in
  let r1 := clip (shape0 image) (snd rowRange) in
  let c0 := clip (shape1 image) (fst colRange) in
  let c1 := clip (shape1 image) (snd colRange) in
  if axis =? 0 then
    map (fun c => mean (map (fun r => item image r c) (seq r0 (r1 - r0))))
        (seq c0 (c1 - c0))
  else
    map (fun r => mean (map (fun c => item image r c) (seq c0 (c1 - c0))))
        (seq r0 (r1 - r0)).

End Spec.

Module MeshSpec.
Import Py MeshItems.
Local Open Scope R_scope.

(** Face normal of the triangle [(v0, v1, v2)], in its winding order. *)
Definition faceNormal (t : vec3 * vec3 * vec3) : vec3 :=
  let '(v0, v1, v2) := t in cross (vsub v1 v0) (vsub v2 v0).

(** The triangle that contains row [k] of a buffer drawn as triangles. *)
Definition triangleOf (rows : list vec3) (k : nat) : vec3 * vec3 * vec3 :=
  let b := (3 * (k / 3))%nat in
  (nth b rows vzero, nth (b + 1) rows vzero, nth (b + 2) rows vzero).

(** "Each of the 12 vertices in a sector gets the face normal of its
    triangle." *)
Definition flat_normals_are_face_normals : Prop :=
  forall (radius height a0 a1 : R) (k : nat),
    (k < 12)%nat ->
    let c := CylindricalVolume.sectorCorners radius height a0 a1 in
    nth k (CylindricalVolume.sectorNormal true c) vzero
    = faceNormal (triangleOf (CylindricalVolume.sectorVolume c) k).

(** "Empty [positions] yields a null empty-mesh sentinel": the state a
    freshly built item is in, which the getters recognize. *)
Definition empty_position_gives_null_mesh : Prop :=
  forall (self : item3D) (c : color) (normal : option (list vec3))
         (mode : string) (position : option (list vec3)),
    noPosition position = true ->
    Mesh.setData self position c normal mode = Ok init.

(** [numpy.min] and [numpy.max] of a 1D array. *)
Definition minimum (l : list R) : R :=
  match l with
  | [] => 0
  | x :: r => fold_left Rmin r x
  end.

Definition maximum (l : list R) : R :=
  match l with
  | [] => 0
  | x :: r => fold_left Rmax r x
  end.

(** Bounding box of a position buffer: its minimum and maximum along
    each coordinate. *)
Definition boundingBox (rows : list vec3) : vec3 * vec3 :=
  (mkVec (minimum (map vx rows)) (minimum (map vy rows))
         (minimum (map vz rows)),
   mkVec (maximum (map vx rows)) (maximum (map vy rows))
         (maximum (map vz rows))).

End MeshSpec.
(** * Properties of the profile tools *)

Import Py PlotTools Spec.

Section ProfileFacts.
Local Open Scope Z_scope.

Ltac q_parts :=
  unfold Qminus, Qdiv, Qplus, Qmult, Qopp, Qinv, inject_Z;
  cbn [Qnum Qden]; rewrite ?Pos.mul_1_l, ?Pos.mul_1_r.

(** The two truncations of [int(int(imgPos) + 0.5 - roiWidth / 2.)] amount
    to an integer quotient rounding toward zero. *)
Lemma roiStart0_quot (p w : Z) : roiStart0 p w = (2 * p + 1 - w) ÷ 2.
Proof.
  unfold roiStart0, int_of_float.
  set (q := (inject_Z p + (1 # 2) - inject_Z w / 2)%Q).
  assert (En : Qnum q = (2 * p + 1 - w) * 2) by (subst q; q_parts; ring).
  assert (Ed : Qden q = 4%positive) by reflexivity.
  rewrite En, Ed.
  change (Z.pos 4) with (2 * 2).
  apply Z.quot_mul_cancel_r; lia.
Qed.

Lemma centeredRange_quot (v w : Z) :
  centeredRange v w = ((2 * v + 1 - w) ÷ 2, (2 * v + 1 + w) ÷ 2).
Proof.
  unfold centeredRange, int_of_float. f_equal.
  - set (q := (inject_Z v + (1 # 2) - (1 # 2) * inject_Z w)%Q).
    assert (En : Qnum q = (2 * v + 1 - w) * 2) by (subst q; q_parts; ring).
    assert (Ed : Qden q = 4%positive) by reflexivity.
    rewrite En, Ed. change (Z.pos 4) with (2 * 2).
    apply Z.quot_mul_cancel_r; lia.
  - set (q := (inject_Z v + (1 # 2) + (1 # 2) * inject_Z w)%Q).
    assert (En : Qnum q = (2 * v + 1 + w) * 2) by (subst q; q_parts; ring).
    assert (Ed : Qden q = 4%positive) by reflexivity.
    rewrite En, Ed. change (Z.pos 4) with (2 * 2).
    apply Z.quot_mul_cancel_r; lia.
Qed.

Lemma quot2_bounds (x : Z) : x - 1 <= 2 * (x ÷ 2) <= x + 1.
Proof.
  pose proof (Z.quot_rem' x 2) as E.
  pose proof (Z.rem_bound_abs x 2 ltac:(lia)) as B.
  lia.
Qed.

(** A band of width at least one around [v] is never degenerate. *)
Lemma centeredRange_ordered (v w : Z) :
  1 <= w -> fst (centeredRange v w) < snd (centeredRange v w).
Proof.
  intros Hw. rewrite centeredRange_quot. cbn [fst snd].
  pose proof (Z.quot_rem' (2 * v + 1 - w) 2) as E1.
  pose proof (Z.quot_rem' (2 * v + 1 + w) 2) as E2.
  pose proof (Z.rem_bound_abs (2 * v + 1 - w) 2 ltac:(lia)) as B1.
  pose proof (Z.rem_bound_abs (2 * v + 1 + w) 2 ltac:(lia)) as B2.
  pose proof (Z.rem_sign_nz (2 * v + 1 - w) 2 ltac:(lia)).
  pose proof (Z.rem_sign_nz (2 * v + 1 + w) 2 ltac:(lia)).
  lia.
Qed.

Lemma roiBand_eq (height roiWidth imgPos : Z) :
  roiBand height roiWidth imgPos =
    (Z.min height roiWidth,
     Z.min (Z.max 0 (roiStart0 imgPos (Z.min height roiWidth)))
           (height - Z.min height roiWidth),
     Z.min (Z.max 0 (roiStart0 imgPos (Z.min height roiWidth)))
           (height - Z.min height roiWidth) + Z.min height roiWidth).
Proof. reflexivity. Qed.

(** With at least one row and a width of at least one, the clamped band
    lies inside the image. *)
Lemma roiBand_inside (height roiWidth imgPos : Z) :
  1 <= height -> 1 <= roiWidth ->
  exists start,
    roiBand height roiWidth imgPos =
      (Z.min height roiWidth, start, start + Z.min height roiWidth)
    /\ 0 <= start /\ start + Z.min height roiWidth <= height.
Proof.
  intros Hh Hw. rewrite roiBand_eq.
  eexists; split; [reflexivity | lia].
Qed.

Lemma slice_index_inside (len : nat) (i : Z) :
  0 <= i <= Z.of_nat len -> slice_index len i = Z.to_nat i.
Proof.
  intros H. unfold slice_index.
  destruct (Z.ltb_spec i 0); lia.
Qed.

Lemma slice_bounds_inside (len : nat) (a b : Z) :
  0 <= a <= b -> b <= Z.of_nat len ->
  slice_bounds len a b = (Z.to_nat a, Z.to_nat b).
Proof.
  intros H1 H2. unfold slice_bounds.
  rewrite !slice_index_inside by lia. f_equal. lia.
Qed.

Lemma truediv_ok (a b : Q) :
  Qeq_bool b 0 = false -> truediv a b = Ok (a / b)%Q.
Proof. intros H. unfold truediv. now rewrite H. Qed.

Lemma mean_axis0_length (a : ndarray2) :
  List.length (mean_axis0 a) = shape1 a.
Proof. unfold mean_axis0. now rewrite length_map, length_seq. Qed.

Lemma zeros_length (n : nat) : List.length (zeros n) = n.
Proof. apply repeat_length. Qed.

Lemma map_seq_offset {A : Type} (f : nat -> A) (s n : nat) :
  map (fun r => f (s + r)%nat) (seq 0 n) = map f (seq s n).
Proof.
  revert s. induction n as [|n IH]; intros s; [reflexivity|].
  cbn [seq map]. rewrite Nat.add_0_r. f_equal.
  rewrite <- seq_shift, map_map, <- IH.
  apply map_ext. intros r. f_equal. lia.
Qed.

(** [image[lo:hi, :].mean(axis=0)] read on the image itself. *)
Lemma mean_axis0_slice_rows (a : ndarray2) (lo hi : Z) :
  0 <= lo <= hi -> hi <= Z.of_nat (shape0 a) ->
  mean_axis0 (slice_rows a lo hi) =
    map (fun c => mean (map (fun r => item a r c)
                            (seq (Z.to_nat lo) (Z.to_nat (hi - lo)))))
        (seq 0 (shape1 a)).
Proof.
  intros H1 H2. unfold slice_rows.
  rewrite slice_bounds_inside by lia.
  unfold mean_axis0, column. cbn [shape0 shape1 item].
  apply map_ext. intros c. f_equal.
  replace (Z.to_nat hi - Z.to_nat lo)%nat with (Z.to_nat (hi - lo)) by lia.
  apply (map_seq_offset (fun r => item a r c)).
Qed.

Lemma assert_axis (axis : Z) :
  axis = 0 \/ axis = 1 -> assert ((axis =? 0) || (axis =? 1)) = Ok tt.
Proof. intros [-> | ->]; reflexivity. Qed.

(** The profile [_alignedFullProfile] computes once the conversion to image
    coordinates succeeded, in terms of the band. *)
Lemma alignedFullProfile_unfold
    (image : ndarray2) (origin scale : Q * Q) (position : Q)
    (roiWidth axis : Z) :
  axis = 0 \/ axis = 1 ->
  Qeq_bool (pick (1 - axis) scale) 0 = false ->
  let img := if axis =? 1 then transpose image else image in
  let height := Z.of_nat (shape0 img) in
  let imgPos := int_of_float ((position - pick (1 - axis) origin)
                              / pick (1 - axis) scale) in
  forall w start end_,
    roiBand height roiWidth imgPos = (w, start, end_) ->
    exists area,
      _alignedFullProfile image origin scale position roiWidth axis =
        Ok (if (start <? height) && (end_ >? 0)
            then mean_axis0 (slice_rows img (Z.max 0 start)
                                        (Z.min end_ height))
            else zeros (shape1 img),
            area).
Proof.
  intros Hax Hs img height imgPos w start end_ E.
  unfold _alignedFullProfile.
  rewrite (assert_axis axis Hax), (truediv_ok _ _ Hs).
  cbn [bind]. fold img. fold height. fold imgPos. rewrite E.
  eexists. reflexivity.
Qed.

(** C10.  In [_alignedFullProfile], for an image with at least one row
    (after the optional transpose) and [roiWidth >= 1], the clamped band
    satisfies [0 <= start] and [start + min(height, roiWidth) <= height]:
    the test guarding the zero profile succeeds and the result is the mean
    over [min(height, roiWidth)] rows of the image, whatever the position. *)
Theorem alignedFullProfile_band_always_intersects
    (image : ndarray2) (origin scale : Q * Q) (position : Q)
    (roiWidth axis : Z) :
  axis = 0 \/ axis = 1 ->
  Qeq_bool (pick (1 - axis) scale) 0 = false ->
  let img := if axis =? 1 then transpose image else image in
  let height := Z.of_nat (shape0 img) in
  let imgPos := int_of_float ((position - pick (1 - axis) origin)
                              / pick (1 - axis) scale) in
  1 <= height -> 1 <= roiWidth ->
  exists start area,
    roiBand height roiWidth imgPos =
      (Z.min height roiWidth, start, start + Z.min height roiWidth)
    /\ 0 <= start
    /\ start + Z.min height roiWidth <= height
    /\ (start <? height) && (start + Z.min height roiWidth >? 0) = true
    /\ _alignedFullProfile image origin scale position roiWidth axis =
         Ok (map (fun c =>
                    mean (map (fun r => item img r c)
                              (seq (Z.to_nat start)
                                   (Z.to_nat (Z.min height roiWidth)))))
                 (seq 0 (shape1 img)),
             area).
Proof.
  intros Hax Hs img height imgPos Hh Hw.
  destruct (roiBand_inside height roiWidth imgPos Hh Hw) as (start & E & H0 & H1).
  destruct (alignedFullProfile_unfold image origin scale position roiWidth
              axis Hax Hs _ _ _ E) as (area & Hp).
  fold img in Hp. fold height in Hp.
  assert (Hc : (start <? height) && (start + Z.min height roiWidth >? 0) = true).
  { apply andb_true_iff. split; [apply Z.ltb_lt | apply Z.gtb_lt]; lia. }
  exists start, area. repeat split; try assumption.
  rewrite Hp, Hc. f_equal. f_equal.
  rewrite mean_axis0_slice_rows by (fold height; lia).
  apply map_ext. intros c. do 3 f_equal; lia.
Qed.

(** At position 100, outside an image of two rows, the band is the last
    row and the profile is that row. *)
Lemma alignedFullProfile_band_always_intersects_witness :
  exists a,
    _alignedFullProfile (of_rows 2 [[1; 2]; [3; 4]]%Q) (0, 0)%Q (1, 1)%Q
                        100%Q 1 0 = Ok ([Val 3; Val 4], a).
Proof.
  destruct (alignedFullProfile_band_always_intersects
              (of_rows 2 [[1; 2]; [3; 4]]%Q) (0, 0)%Q (1, 1)%Q 100%Q 1 0
              (or_introl eq_refl) eq_refl)
    as (start & a & E & _ & _ & _ & Hp); [cbv; discriminate | lia |].
  vm_compute in E. injection E as <-.
  exists a. exact Hp.
Defined.

(** C1, as stated, fails: on the image [[1, 2], [3, 4]] the band requested
    at position 100 with width 1 is rows [100, 101[, outside the image,
    but the band is clamped to the last row and the profile is [3, 4]. *)
Lemma zero_profile_outside_image_fails :
  outsideImage 2 (requestedBand 2 1 100) = true
  /\ _alignedFullProfile (of_rows 2 [[1; 2]; [3; 4]]%Q) (0, 0)%Q (1, 1)%Q
                          100%Q 1 0
     = Ok ([Val 3; Val 4], ([0; 2; 2; 0]%Q, [1; 1; 2; 2]%Q))
  /\ ~ zero_profile_outside_image.
Proof.
  split; [reflexivity|]. split; [reflexivity|].
  intros H.
  destruct (H (of_rows 2 [[1; 2]; [3; 4]]%Q) (0, 0)%Q (1, 1)%Q 100%Q 1 0
              (or_introl eq_refl) eq_refl eq_refl) as (a & Ha).
  vm_compute in Ha. discriminate Ha.
Qed.

(** C1, amended.  [_alignedFullProfile] returns a profile whose length is
    the extent of the image along the profile axis, whether or not the band
    meets the image.  The profile is all-zero whenever the clamped band
    [start, end[ misses the image ([start >= height] or [end <= 0]), which
    happens only for an image without rows or for [roiWidth <= 0].  With at
    least one row and [roiWidth >= 1], a band requested outside the image
    is clamped onto it: the profile consists of the column means of the
    last [min(height, roiWidth)] rows when the request lies beyond the
    image, of the first ones when it lies before it. *)
Theorem alignedFullProfile_length_and_zero_fallback
    (image : ndarray2) (origin scale : Q * Q) (position : Q)
    (roiWidth axis : Z) :
  axis = 0 \/ axis = 1 ->
  Qeq_bool (pick (1 - axis) scale) 0 = false ->
  let img := if axis =? 1 then transpose image else image in
  let height := Z.of_nat (shape0 img) in
  let imgPos := int_of_float ((position - pick (1 - axis) origin)
                              / pick (1 - axis) scale) in
  exists profile a,
    _alignedFullProfile image origin scale position roiWidth axis
      = Ok (profile, a)
    /\ List.length profile = shape1 img
    /\ (forall w start end_,
          roiBand height roiWidth imgPos = (w, start, end_) ->
          height <= start \/ end_ <= 0 ->
          profile = zeros (shape1 img)
          /\ (height = 0 \/ roiWidth <= 0))
    /\ (1 <= height -> 1 <= roiWidth ->
        outsideImage height (requestedBand height roiWidth imgPos) = true ->
        let w := Z.min height roiWidth in
        let start :=
          if height <=? fst (requestedBand height roiWidth imgPos)
          then height - w else 0 in
        roiBand height roiWidth imgPos = (w, start, start + w)
        /\ profile
           = map (fun c =>
                    mean (map (fun r => item img r c)
                              (seq (Z.to_nat start) (Z.to_nat w))))
                 (seq 0 (shape1 img))).
Proof.
  intros Hax Hs img height imgPos.
  destruct (roiBand height roiWidth imgPos) as [[w start] end_] eqn:E.
  destruct (alignedFullProfile_unfold image origin scale position roiWidth
              axis Hax Hs _ _ _ E) as (a & Hp).
  fold img in Hp. fold height in Hp.
  rewrite roiBand_eq in E. injection E as Ew Es Ee.
  eexists. exists a. split; [exact Hp|]. split; [|split].
  - destruct ((start <? height) && (end_ >? 0)).
    + rewrite mean_axis0_length. unfold slice_rows.
      now destruct (slice_bounds _ _ _).
    + apply zeros_length.
  - intros w' start' end' E' Hout. injection E' as <- <- <-. split.
    + replace ((start <? height) && (end_ >? 0)) with false; [reflexivity|].
      symmetry. apply andb_false_iff.
      destruct Hout; [left | right; rewrite Z.gtb_ltb]; apply Z.ltb_ge; lia.
    + lia.
  - intros Hh Hw Hout w0 start0.
    unfold outsideImage, requestedBand in Hout. cbn [fst snd] in Hout.
    unfold requestedBand in start0. cbn [fst] in start0.
    assert (Estart : start = start0).
    { subst start0 w0. apply orb_true_iff in Hout.
      destruct (Z.leb_spec height
                  (roiStart0 imgPos (Z.min height roiWidth))) as [H | H].
      - lia.
      - destruct Hout as [Hout | Hout]; [discriminate Hout|].
        apply Z.leb_le in Hout. lia. }
    assert (Ew0 : w = w0) by (subst w0; lia).
    rewrite <- Estart, <- Ew0. split.
    + replace end_ with (start + w) by lia. reflexivity.
    + replace ((start <? height) && (end_ >? 0)) with true
        by (symmetry; apply andb_true_iff;
            split; [apply Z.ltb_lt | apply Z.gtb_lt]; lia).
      rewrite mean_axis0_slice_rows by (fold height; lia).
      apply map_ext. intros c. do 3 f_equal; lia.
Qed.

(** On the image [[1, 2], [3, 4]] at position 100: with a width of 0 the
    empty band sits at the end of the image and the profile is zero; with
    a width of 1 the band is clamped to the last row, whose items are the
    profile. *)
Lemma alignedFullProfile_length_and_zero_fallback_witness :
  (exists a,
      _alignedFullProfile (of_rows 2 [[1; 2]; [3; 4]]%Q) (0, 0)%Q (1, 1)%Q
                          100%Q 0 0 = Ok (zeros 2, a))
  /\ (exists a,
        _alignedFullProfile (of_rows 2 [[1; 2]; [3; 4]]%Q) (0, 0)%Q (1, 1)%Q
                            100%Q 1 0 = Ok ([Val 3; Val 4], a)).
Proof.
  split.
  - destruct (alignedFullProfile_length_and_zero_fallback
                (of_rows 2 [[1; 2]; [3; 4]]%Q) (0, 0)%Q (1, 1)%Q 100%Q 0 0
                (or_introl eq_refl) eq_refl)
      as (profile & a & Hp & _ & Hz & _).
    exists a. rewrite Hp. do 2 f_equal.
    apply (Hz 0 2 2); [reflexivity | left; cbv; discriminate].
  - destruct (alignedFullProfile_length_and_zero_fallback
                (of_rows 2 [[1; 2]; [3; 4]]%Q) (0, 0)%Q (1, 1)%Q 100%Q 1 0
                (or_introl eq_refl) eq_refl)
      as (profile & a & Hp & _ & _ & Hc).
    destruct Hc as [_ Hprof];
      [cbv; discriminate | cbv; discriminate | reflexivity |].
    exists a. rewrite Hp, Hprof. reflexivity.
Defined.

(** C3, as stated, fails: for [idx = 2.7] and a width of 1 in an image of
    5 rows the specified band starts at [round(2.7) = 3], the computed one
    at [int(int(2.7) + 0.5 - 0.5) = 2]. *)
Lemma band_as_specified_fails :
  roiBand 5 1 (int_of_float (27 # 10)) = (1, 2, 3)
  /\ specifiedBand 5 1 (27 # 10) = (1, 3, 4)
  /\ ~ band_as_specified.
Proof.
  split; [reflexivity|]. split; [reflexivity|].
  intros H.
  specialize (H 5 1 (27 # 10)%Q ltac:(lia) ltac:(lia)).
  vm_compute in H. discriminate H.
Qed.

(** C3, amended.  With [imgPos = int(idx)] (truncation toward zero), the
    width is [min(extent, roiWidth)], the band starts at
    [int(imgPos + 0.5 - width / 2.)], i.e. the quotient of
    [2 * imgPos + 1 - width] by 2 rounded toward zero, clamped by
    [min(max(0, start), extent - width)], and [end = start + width].  For
    [extent >= 1] and [roiWidth >= 1] the width is in [[1, extent]], the
    band lies inside the image, and the unclamped band contains row
    [imgPos] with at most one row more on one side than on the other. *)
Theorem roiBand_truncates_and_clamps (extent roiWidth : Z) (idx : Q) :
  let imgPos := int_of_float idx in
  let width := Z.min extent roiWidth in
  let start0 := (2 * imgPos + 1 - width) ÷ 2 in
  let start := clamp 0 (extent - width) start0 in
  roiBand extent roiWidth imgPos = (width, start, start + width)
  /\ (1 <= extent -> 1 <= roiWidth ->
      1 <= width <= extent
      /\ 0 <= start <= extent - width
      /\ start + width <= extent
      /\ start0 <= imgPos < start0 + width
      /\ Z.abs ((imgPos - start0) - (start0 + width - 1 - imgPos)) <= 1).
Proof.
  intros imgPos width start0 start. split.
  - rewrite roiBand_eq, roiStart0_quot. reflexivity.
  - intros He Hw.
    pose proof (quot2_bounds (2 * imgPos + 1 - width)) as B.
    fold start0 in B. subst start. unfold clamp. subst width.
    repeat split; lia.
Qed.

Lemma roiBand_truncates_and_clamps_witness :
  roiBand 5 1 (int_of_float (27 # 10)) = (1, 2, 3)
  /\ 2 <= int_of_float (27 # 10) < 2 + 1.
Proof.
  destruct (roiBand_truncates_and_clamps 5 1 (27 # 10)) as [E H].
  destruct (H ltac:(lia) ltac:(lia)) as (_ & _ & _ & Hc & _).
  split; [exact E | exact Hc].
Defined.

(** The means [_alignedPartialProfile] takes over the clipped slice are the
    means over the intersection of the ROI with the image. *)
Lemma mean_axis_intersection (image : ndarray2) (rowRange colRange : Z * Z)
    (axis : Z) :
  fst rowRange < snd rowRange -> fst colRange < snd colRange ->
  let height := Z.of_nat (shape0 image) in
  let width := Z.of_nat (shape1 image) in
  mean_axis axis
    (slice2 image (Z.min (Z.max 0 (fst rowRange)) height)
                  (Z.min (Z.max 0 (snd rowRange)) height)
                  (Z.min (Z.max 0 (fst colRange)) width)
                  (Z.min (Z.max 0 (snd colRange)) width))
  = intersectionMeans image rowRange colRange axis.
Proof.
  intros Hr Hc height width. unfold slice2.
  rewrite !slice_bounds_inside by lia.
  unfold intersectionMeans, mean_axis, mean_axis0, mean_axis1, column, row.
  cbn [shape0 shape1 item]. fold height. fold width. unfold clip.
  fold height. fold width.
  set (r0 := Z.to_nat (Z.min (Z.max 0 (fst rowRange)) height)).
  set (r1 := Z.to_nat (Z.min (Z.max 0 (snd rowRange)) height)).
  set (c0 := Z.to_nat (Z.min (Z.max 0 (fst colRange)) width)).
  set (c1 := Z.to_nat (Z.min (Z.max 0 (snd colRange)) width)).
  destruct (axis =? 0).
  - rewrite <- (map_seq_offset
                  (fun c => mean (map (fun r => item image r c)
                                      (seq r0 (r1 - r0)))) c0).
    apply map_ext. intros c. f_equal.
    apply (map_seq_offset (fun r => item image r (c0 + c)%nat)).
  - rewrite <- (map_seq_offset
                  (fun r => mean (map (fun c => item image r c)
                                      (seq c0 (c1 - c0)))) r0).
    apply map_ext. intros r. f_equal.
    apply (map_seq_offset (fun c => item image (r0 + r)%nat c)).
Qed.

Lemma intersectionMeans_length (image : ndarray2) (rowRange colRange : Z * Z)
    (axis : Z) :
  List.length (intersectionMeans image rowRange colRange axis) =
    if axis =? 0
    then (clip (shape1 image) (snd colRange)
          - clip (shape1 image) (fst colRange))%nat
    else (clip (shape0 image) (snd rowRange)
          - clip (shape0 image) (fst rowRange))%nat.
Proof.
  unfold intersectionMeans.
  destruct (axis =? 0); now rewrite length_map, length_seq.
Qed.

Lemma firstn_zeros (n m : nat) : (n <= m)%nat -> firstn n (zeros m) = zeros n.
Proof.
  unfold zeros. revert m.
  induction n as [|n IH]; intros [|m] H; cbn; try reflexivity; try lia.
  f_equal. apply IH. lia.
Qed.

Lemma skipn_zeros (n m : nat) : skipn n (zeros m) = zeros (m - n).
Proof.
  unfold zeros. revert m.
  induction n as [|n IH]; intros [|m]; cbn; try reflexivity.
  apply IH.
Qed.

(** Writing [v] into a zero profile at [off]: it fits, or it is empty. *)
Lemma setslice_zeros_fit (L off : nat) (v : list sample) :
  (off + List.length v <= L)%nat ->
  setslice (zeros L) (Z.of_nat off)
           (Z.of_nat off + Z.of_nat (List.length v)) v
  = Ok (zeros off ++ v ++ zeros (L - off - List.length v)).
Proof.
  intros H. unfold setslice. rewrite zeros_length.
  rewrite slice_bounds_inside by lia.
  replace (Z.to_nat (Z.of_nat off + Z.of_nat (List.length v)) -
           Z.to_nat (Z.of_nat off))%nat with (List.length v) by lia.
  rewrite Nat.eqb_refl, Nat2Z.id.
  rewrite firstn_zeros by lia. rewrite skipn_zeros.
  do 4 f_equal. lia.
Qed.

Lemma setslice_zeros_empty (L : nat) (off : Z) :
  0 <= off -> setslice (zeros L) off (off + 0) [] = Ok (zeros L).
Proof.
  intros H. unfold setslice, slice_bounds. rewrite zeros_length.
  rewrite Z.add_0_r, Nat.max_id, Nat.sub_diag. cbn [List.length Nat.eqb app].
  now rewrite firstn_skipn.
Qed.

(** Layout of the profile [_alignedPartialProfile] returns. *)
Lemma alignedPartialProfile_layout
    (image : ndarray2) (rowRange colRange : Z * Z) (axis : Z) :
  axis = 0 \/ axis = 1 ->
  fst rowRange < snd rowRange ->
  fst colRange < snd colRange ->
  let profileRange := if axis =? 0 then colRange else rowRange in
  let means := intersectionMeans image rowRange colRange axis in
  let offset := Z.to_nat (- Z.min 0 (fst profileRange)) in
  let L := Z.to_nat (Z.abs (snd profileRange - fst profileRange)) in
  exists profile,
    _alignedPartialProfile image rowRange colRange axis = Ok profile
    /\ List.length profile = L
    /\ (means = [] -> profile = zeros L)
    /\ (means <> [] ->
        (offset + List.length means <= L)%nat
        /\ profile = zeros offset ++ means
                      ++ zeros (L - offset - List.length means)).
Proof.
  intros Hax Hr Hc profileRange means offset L.
  unfold _alignedPartialProfile.
  rewrite (assert_axis axis Hax).
  replace (fst rowRange <? snd rowRange) with true
    by (symmetry; now apply Z.ltb_lt).
  replace (fst colRange <? snd colRange) with true
    by (symmetry; now apply Z.ltb_lt).
  cbn [assert bind].
  rewrite (mean_axis_intersection image rowRange colRange axis Hr Hc).
  fold profileRange. fold means. fold L.
  assert (Hfit : means <> [] -> (offset + List.length means <= L)%nat).
  { intros Hne.
    assert (Hpos : (0 < List.length means)%nat)
      by (destruct means; [congruence | cbn; lia]).
    revert Hpos. subst means offset L profileRange.
    rewrite intersectionMeans_length. unfold clip.
    destruct (axis =? 0); lia. }
  destruct means as [|m ms] eqn:Em.
  - exists (zeros L). cbn [List.length]. change (Z.of_nat 0) with 0.
    rewrite setslice_zeros_empty by lia.
    split; [reflexivity|]. split; [apply zeros_length|].
    split; [reflexivity | congruence].
  - rewrite <- Em in *.
    assert (Hne : means <> []) by (rewrite Em; discriminate).
    specialize (Hfit Hne).
    replace (- Z.min 0 (fst profileRange)) with (Z.of_nat offset)
      by (subst offset; lia).
    rewrite setslice_zeros_fit by exact Hfit.
    eexists. split; [reflexivity|]. split; [|split].
    + rewrite !length_app, !zeros_length. lia.
    + intros E. congruence.
    + intros _. split; [exact Hfit | reflexivity].
Qed.

Lemma mean_nonempty (l : list Q) :
  l <> [] ->
  mean l = Val (Qsum l / inject_Z (Z.of_nat (List.length l))).
Proof. destruct l; [congruence | reflexivity]. Qed.

(** Sample by sample: the means sit at [offset], zeros elsewhere. *)
Lemma alignedPartialProfile_samples
    (image : ndarray2) (rowRange colRange : Z * Z) (axis : Z) :
  axis = 0 \/ axis = 1 ->
  fst rowRange < snd rowRange ->
  fst colRange < snd colRange ->
  let profileRange := if axis =? 0 then colRange else rowRange in
  let means := intersectionMeans image rowRange colRange axis in
  let offset := Z.to_nat (- Z.min 0 (fst profileRange)) in
  let L := Z.to_nat (Z.abs (snd profileRange - fst profileRange)) in
  exists profile,
    _alignedPartialProfile image rowRange colRange axis = Ok profile
    /\ List.length profile = L
    /\ (means <> [] -> (offset + List.length means <= L)%nat)
    /\ forall k,
         (k < L)%nat ->
         nth_error profile k
         = if (offset <=? k)%nat && (k <? offset + List.length means)%nat
           then nth_error means (k - offset)
           else Some (Val 0).
Proof.
  intros Hax Hr Hc profileRange means offset L.
  destruct (alignedPartialProfile_layout image rowRange colRange axis
              Hax Hr Hc) as (profile & Hp & Hl & Hempty & Hfull).
  fold profileRange in Hl, Hempty, Hfull. fold means in Hempty, Hfull.
  fold offset in Hfull. fold L in Hl, Hempty, Hfull.
  exists profile. split; [exact Hp|]. split; [exact Hl|].
  split; [intros Hne; now apply Hfull|].
  intros k Hk. destruct means as [|m ms] eqn:Em.
  - rewrite Hempty by reflexivity. cbn [List.length].
    unfold zeros. rewrite nth_error_repeat by exact Hk.
    destruct (Nat.leb_spec offset k), (Nat.ltb_spec k (offset + 0));
      try reflexivity; lia.
  - rewrite <- Em in *.
    destruct Hfull as [Hfit ->]; [rewrite Em; discriminate|].
    destruct (Nat.leb_spec offset k) as [Hlo | Hlo]; cbn [andb].
    + rewrite nth_error_app2 by (rewrite zeros_length; lia).
      rewrite zeros_length.
      destruct (Nat.ltb_spec k (offset + List.length means)) as [Hhi | Hhi].
      * now rewrite nth_error_app1 by lia.
      * rewrite nth_error_app2 by lia. unfold zeros.
        apply nth_error_repeat. lia.
    + rewrite nth_error_app1 by (rewrite zeros_length; lia).
      unfold zeros. now apply nth_error_repeat.
Qed.

(** The means are numbers when the ROI meets the image along the reduced
    axis, and [nan] when it does not. *)
Lemma intersectionMeans_values
    (image : ndarray2) (rowRange colRange : Z * Z) (axis : Z) :
  let reduced :=
    if axis =? 0
    then (clip (shape0 image) (snd rowRange)
          - clip (shape0 image) (fst rowRange))%nat
    else (clip (shape1 image) (snd colRange)
          - clip (shape1 image) (fst colRange))%nat in
  let means := intersectionMeans image rowRange colRange axis in
  (reduced = 0%nat -> means = repeat NaN (List.length means))
  /\ ((0 < reduced)%nat -> Forall (fun s => exists q, s = Val q) means).
Proof.
  unfold intersectionMeans.
  destruct (axis =? 0); cbv zeta; split; intros H.
  - rewrite H. cbn [seq map mean]. rewrite length_map. apply map_const.
  - apply Forall_map, Forall_forall. intros c _.
    rewrite mean_nonempty; [eexists; reflexivity|].
    intros E. apply (f_equal (@List.length Q)) in E.
    rewrite length_map, length_seq in E. cbn in E. lia.
  - rewrite H. cbn [seq map mean]. rewrite length_map. apply map_const.
  - apply Forall_map, Forall_forall. intros c _.
    rewrite mean_nonempty; [eexists; reflexivity|].
    intros E. apply (f_equal (@List.length Q)) in E.
    rewrite length_map, length_seq in E. cbn in E. lia.
Qed.

(** C4.  For ranges with [min < max], [_alignedPartialProfile] returns a
    profile of the requested length [abs(profileRange[1] - profileRange[0])]
    and writes the means of the intersection at offset
    [- min(0, profileRange[0])]; every sample outside that window is zero.
    But the window itself is zero-filled only by accident: when the ROI
    meets the image along the reduced axis its samples are numbers, and
    when the ROI lies outside the image along the reduced axis while it
    overlaps the image along the profile axis, [numpy.mean] of the empty
    slice is [nan] and every sample of the window is [nan], not zero. *)
Theorem alignedPartialProfile_nan_outside_reduced_axis
    (image : ndarray2) (rowRange colRange : Z * Z) (axis : Z) :
  axis = 0 \/ axis = 1 ->
  fst rowRange < snd rowRange ->
  fst colRange < snd colRange ->
  let profileRange := if axis =? 0 then colRange else rowRange in
  let offset := Z.to_nat (- Z.min 0 (fst profileRange)) in
  let L := Z.to_nat (Z.abs (snd profileRange - fst profileRange)) in
  let rows := (clip (shape0 image) (snd rowRange)
               - clip (shape0 image) (fst rowRange))%nat in
  let cols := (clip (shape1 image) (snd colRange)
               - clip (shape1 image) (fst colRange))%nat in
  let window := if axis =? 0 then cols else rows in
  let reduced := if axis =? 0 then rows else cols in
  exists profile,
    _alignedPartialProfile image rowRange colRange axis = Ok profile
    /\ List.length profile = L
    /\ ((0 < window)%nat -> (offset + window <= L)%nat)
    /\ (forall k, (k < L)%nat ->
                  ~ (offset <= k < offset + window)%nat ->
                  nth_error profile k = Some (Val 0))
    /\ ((0 < reduced)%nat ->
        forall k, (offset <= k < offset + window)%nat ->
                  exists q, nth_error profile k = Some (Val q))
    /\ (reduced = 0%nat ->
        forall k, (offset <= k < offset + window)%nat ->
                  nth_error profile k = Some NaN).
Proof.
  intros Hax Hr Hc profileRange offset L rows cols window reduced.
  destruct (alignedPartialProfile_samples image rowRange colRange axis
              Hax Hr Hc) as (profile & Hp & Hl & Hfit & Hk).
  fold profileRange in Hl, Hfit, Hk. fold offset in Hfit, Hk.
  fold L in Hl, Hfit, Hk.
  pose proof (intersectionMeans_length image rowRange colRange axis) as Hn.
  pose proof (intersectionMeans_values image rowRange colRange axis)
    as [Hnan Hval].
  fold rows in Hn, Hnan, Hval. fold cols in Hn, Hnan, Hval.
  fold window in Hn. fold reduced in Hnan, Hval.
  set (means := intersectionMeans image rowRange colRange axis) in *.
  rewrite Hn in Hfit, Hk.
  assert (Hfit' : (0 < window)%nat -> (offset + window <= L)%nat).
  { intros Hw. apply Hfit. intros E. rewrite E in Hn. cbn in Hn. lia. }
  assert (Hin : forall k, (offset <= k < offset + window)%nat ->
                          nth_error profile k = nth_error means (k - offset)).
  { intros k Hwin. rewrite Hk by (specialize (Hfit' ltac:(lia)); lia).
    destruct (Nat.leb_spec offset k), (Nat.ltb_spec k (offset + window));
      try reflexivity; lia. }
  exists profile. split; [exact Hp|]. split; [exact Hl|].
  split; [exact Hfit'|]. split; [|split].
  - intros k HkL Hout. rewrite Hk by exact HkL.
    destruct (Nat.leb_spec offset k), (Nat.ltb_spec k (offset + window));
      try reflexivity; lia.
  - intros Hred k Hwin. rewrite (Hin k Hwin).
    destruct (nth_error means (k - offset)) as [s|] eqn:E.
    + apply nth_error_In in E.
      destruct (proj1 (Forall_forall _ _) (Hval Hred) s E) as (q & ->).
      now exists q.
    + apply nth_error_None in E. lia.
  - intros Hred k Hwin. rewrite (Hin k Hwin), (Hnan Hred), Hn.
    apply nth_error_repeat. lia.
Qed.

(** The rows [5, 7[ lie below the two rows of the image [[1, 2], [3, 4]];
    over its columns [0, 2[ the profile is [nan, nan]. *)
Lemma alignedPartialProfile_nan_outside_reduced_axis_witness :
  _alignedPartialProfile (of_rows 2 [[1; 2]; [3; 4]]%Q) (5, 7) (0, 2) 0
  = Ok [NaN; NaN]
  /\ exists profile,
       _alignedPartialProfile (of_rows 2 [[1; 2]; [3; 4]]%Q) (5, 7) (0, 2) 0
       = Ok profile
       /\ nth_error profile 0 = Some NaN
       /\ nth_error profile 1 = Some NaN.
Proof.
  split; [reflexivity|].
  destruct (alignedPartialProfile_nan_outside_reduced_axis
              (of_rows 2 [[1; 2]; [3; 4]]%Q) (5, 7) (0, 2) 0
              (or_introl eq_refl) eq_refl eq_refl)
    as (profile & Hp & _ & _ & _ & _ & Hnan).
  exists profile. split; [exact Hp|].
  split; apply (Hnan eq_refl); cbv; lia.
Defined.

(** C8, as stated, fails: a free line from (1, 1) to (1, 1) is not
    rejected, [updateProfile] computes the one-sample profile [4]. *)
Lemma degenerate_input_rejected_fails :
  freeLineProfile (fun _ _ _ _ => []) (fun x => x)
    (of_rows 2 [[1; 2]; [3; 4]]%Q) (0, 0)%Q (1, 1)%Q (1, 1)%Q (1, 1)%Q 1
  = Ok ([Val 4], ([1; 2; 2; 1]%Q, [1; 1; 2; 2]%Q))
  /\ ~ degenerate_input_rejected.
Proof.
  split; [reflexivity|].
  intros [_ H].
  destruct (H (fun _ _ _ _ => []) (fun x => x)
              (of_rows 2 [[1; 2]; [3; 4]]%Q) (0, 0)%Q (1, 1)%Q (1, 1)%Q 1)
    as (e & He).
  vm_compute in He. discriminate He.
Qed.

Lemma gtb_irrefl (z : Z) : (z >? z) = false.
Proof. rewrite Z.gtb_ltb. apply Z.ltb_irrefl. Qed.

(** The band has [w] rows, or [w - 1] when [w] is even and the band
    straddles zero, since [int] truncates both bounds toward zero. *)
Lemma centeredRange_size (v w : Z) :
  1 <= w ->
  snd (centeredRange v w) - fst (centeredRange v w)
  = if Z.even w && (Z.abs (2 * v + 1) <? w) then w - 1 else w.
Proof.
  intros Hw. rewrite centeredRange_quot. cbn [fst snd].
  pose proof (Z.quot_rem' (2 * v + 1 - w) 2) as E1.
  pose proof (Z.quot_rem' (2 * v + 1 + w) 2) as E2.
  pose proof (Z.rem_bound_abs (2 * v + 1 - w) 2 ltac:(lia)) as B1.
  pose proof (Z.rem_bound_abs (2 * v + 1 + w) 2 ltac:(lia)) as B2.
  pose proof (Z.rem_sign_nz (2 * v + 1 - w) 2 ltac:(lia)) as S1.
  pose proof (Z.rem_sign_nz (2 * v + 1 + w) 2 ltac:(lia)) as S2.
  pose proof (Z.rem_mod_nonneg (2 * v + 1 - w) 2) as M1.
  pose proof (Z.rem_mod_nonneg (2 * v + 1 + w) 2) as M2.
  pose proof (Z.mod_pos_bound (2 * v + 1 - w) 2 ltac:(lia)) as P1.
  pose proof (Z.mod_pos_bound (2 * v + 1 + w) 2 ltac:(lia)) as P2.
  pose proof (Z.div_mod (2 * v + 1 - w) 2 ltac:(lia)) as D1.
  pose proof (Z.div_mod (2 * v + 1 + w) 2 ltac:(lia)) as D2.
  destruct (Z.even w) eqn:Ev; cbn [andb].
  - apply Z.even_spec in Ev. destruct Ev as [h Eh].
    destruct (Z.ltb_spec (Z.abs (2 * v + 1)) w); lia.
  - assert (Eo : Z.odd w = true)
      by (rewrite <- Z.negb_even, Ev; reflexivity).
    apply Z.odd_spec in Eo. destruct Eo as [h Eh]. lia.
Qed.

(** C8, amended.  A degenerate range ([rowRange[0] >= rowRange[1]] or
    [colRange[0] >= colRange[1]]) makes [_alignedPartialProfile] fail on its
    assertion.  A zero-length free line is not rejected: with non-zero
    scales and [roiWidth >= 1], [updateProfile] calls
    [_alignedPartialProfile] with axis 0, the column range [c, c + 1[ and the
    row range
    [(int(r + 0.5 - 0.5 * roiWidth), int(r + 0.5 + 0.5 * roiWidth))],
    [(r, c)] being the truncated pixel of the point.  That row range is
    never degenerate; it has [roiWidth] rows, or [roiWidth - 1] when
    [roiWidth] is even and [abs(2 * r + 1) < roiWidth].  The call returns a
    profile of one sample, and the ROI polygon is built from the two
    ranges. *)
Theorem degenerate_range_rejected_point_line_computed :
  (forall (image : ndarray2) (rowRange colRange : Z * Z) (axis : Z),
      snd rowRange <= fst rowRange \/ snd colRange <= fst colRange ->
      _alignedPartialProfile image rowRange colRange axis
      = Err AssertionError)
  /\
  (forall profile_line fsqrt (data : ndarray2) (origin scale : Q * Q)
          (p : Q * Q) (roiWidth : Z),
      Qeq_bool (fst scale) 0 = false ->
      Qeq_bool (snd scale) 0 = false ->
      1 <= roiWidth ->
      let r := int_of_float ((snd p - snd origin) / snd scale) in
      let c := int_of_float ((fst p - fst origin) / fst scale) in
      let rowRange := centeredRange r roiWidth in
      fst rowRange < snd rowRange
      /\ snd rowRange - fst rowRange
         = (if Z.even roiWidth && (Z.abs (2 * r + 1) <? roiWidth)
            then roiWidth - 1 else roiWidth)
      /\ exists profile,
           _alignedPartialProfile data rowRange (c, c + 1) 0 = Ok profile
           /\ List.length profile = 1%nat
           /\ freeLineProfile profile_line fsqrt data origin scale p p
                roiWidth
              = Ok (profile,
                    (affine4 (inject_Z c, inject_Z (c + 1),
                              inject_Z (c + 1), inject_Z c)
                             (fst scale) (fst origin),
                     affine4 (inject_Z (fst rowRange),
                              inject_Z (fst rowRange),
                              inject_Z (snd rowRange),
                              inject_Z (snd rowRange))
                             (snd scale) (snd origin)))).
Proof.
  split.
  - intros image rowRange colRange axis H. unfold _alignedPartialProfile.
    destruct ((axis =? 0) || (axis =? 1)); [|reflexivity].
    cbn [assert bind].
    destruct (Z.ltb_spec (fst rowRange) (snd rowRange)); [|reflexivity].
    cbn [assert bind].
    destruct (Z.ltb_spec (fst colRange) (snd colRange)); [|reflexivity].
    lia.
  - intros profile_line fsqrt data origin scale p roiWidth Hx Hy Hw
           r c rowRange.
    split; [exact (centeredRange_ordered r roiWidth Hw)|].
    split; [exact (centeredRange_size r roiWidth Hw)|].
    destruct (alignedPartialProfile_layout data rowRange
                (c, c + 1) 0 (or_introl eq_refl)
                (centeredRange_ordered r roiWidth Hw))
      as (profile & Hp & Hl & _); [cbn; lia|].
    exists profile. split; [exact Hp|].
    split; [rewrite Hl; cbn [Z.eqb fst snd]; lia|].
    unfold freeLineProfile.
    rewrite !truediv_ok by assumption. cbn [bind].
    rewrite Z.eqb_refl. cbn [orb].
    unfold alignedLineProfile. cbn [fst snd].
    rewrite !gtb_irrefl. cbn [orb fst snd]. rewrite Z.eqb_refl.
    fold r c. fold rowRange. rewrite Hp. reflexivity.
Qed.

(** A point at pixel (0, 0) with a ROI width of 2: the band is the single
    row [0, 1[ and the profile is the pixel itself. *)
Lemma degenerate_range_rejected_point_line_computed_witness :
  _alignedPartialProfile (of_rows 2 [[1; 2]; [3; 4]]%Q) (1, 1) (0, 2) 0
    = Err AssertionError
  /\ centeredRange 0 2 = (0, 1)
  /\ freeLineProfile (fun _ _ _ _ => []) (fun x => x)
       (of_rows 2 [[1; 2]; [3; 4]]%Q) (0, 0)%Q (1, 1)%Q
       (0, 0)%Q (0, 0)%Q 2
     = Ok ([Val 1], ([0; 1; 1; 0]%Q, [0; 0; 1; 1]%Q)).
Proof.
  destruct degenerate_range_rejected_point_line_computed as [Hr Hp].
  split; [apply Hr; left; cbn; lia|].
  split; [reflexivity|].
  destruct (Hp (fun _ _ _ _ => []) (fun x => x)
              (of_rows 2 [[1; 2]; [3; 4]]%Q) (0, 0)%Q (1, 1)%Q (0, 0)%Q 2
              eq_refl eq_refl ltac:(lia))
    as (_ & _ & profile & Hprof & _ & Hfree).
  vm_compute in Hprof. injection Hprof as <-.
  rewrite Hfree. reflexivity.
Defined.

End ProfileFacts.

(** * Properties of the position readout *)

Section PositionFacts.

Variable format_g7 : Q -> string.

Lemma update_fields_acc (style : string) (x y : Q) (fs : list field)
    (acc : list field * list string) :
  fold_left
    (fun acc f =>
       let '(f', l) := update_field format_g7 style x y f in
       (fst acc ++ [f'], snd acc ++ l))
    fs acc
  = (fst acc ++ map (fun f => fst (update_field format_g7 style x y f)) fs,
     snd acc ++ flat_map (fun f => snd (update_field format_g7 style x y f)) fs).
Proof.
  revert acc. induction fs as [|f fs IH]; intros [a l]; cbn [fold_left].
  - cbn. now rewrite !app_nil_r.
  - rewrite IH. cbn [map flat_map].
    destruct (update_field format_g7 style x y f) as [f' l'].
    cbn [fst snd]. f_equal; rewrite <- app_assoc; reflexivity.
Qed.

(** The loop updates the fields one by one, each from its own converter. *)
Lemma update_fields_map (style : string) (x y : Q) (fs : list field) :
  fst (update_fields format_g7 style x y fs)
  = map (fun f => fst (update_field format_g7 style x y f)) fs.
Proof. unfold update_fields. now rewrite update_fields_acc. Qed.



End PositionFacts.


(** * Properties of the mesh items *)

Import MeshItems MeshSpec.

Section MeshFacts.
Local Open Scope R_scope.

Ltac vec_eq := unfold cross, vsub, vadd, vzero; cbn [vx vy vz]; f_equal; ring.

(** C6.  With no position ([None] or an empty array), [Mesh.setData] and
    [_CylindricalVolume._setData] attach no child to the scene primitive,
    but they store the integer 0 in [_mesh], not [None]: the item is not in
    the state [__init__] builds, and the getters, which test
    [self._mesh is None], fail on it instead of returning empty data. *)
Theorem empty_position_stores_integer_zero
    (self : item3D) (c : color) (normal : option (list vec3)) (mode : string)
    (radius height : R) (angles : list R) (flatFaces : bool) :
  Mesh.setData self None c normal mode = Ok (mkItem (PyInt 0) [])
  /\ Mesh.setData self (Some []) c normal mode = Ok (mkItem (PyInt 0) [])
  /\ CylindricalVolume._setData self None radius height angles c flatFaces
     = Ok (mkItem (PyInt 0) [])
  /\ CylindricalVolume._setData self (Some []) radius height angles c
       flatFaces = Ok (mkItem (PyInt 0) [])
  /\ mkItem (PyInt 0) [] <> init
  /\ Mesh.getPositionData (mkItem (PyInt 0) []) = Err AttributeError
  /\ Mesh.getColorData (mkItem (PyInt 0) []) = Err AttributeError
  /\ Mesh.getNormalData (mkItem (PyInt 0) []) = Err AttributeError
  /\ Mesh.getPositionData init = Ok [].
Proof.
  repeat split; try reflexivity. discriminate.
Qed.

Lemma empty_position_gives_null_mesh_fails : ~ empty_position_gives_null_mesh.
Proof.
  intros H.
  specialize (H init [] None "triangles"%string (Some []) eq_refl).
  discriminate H.
Qed.

(** The normals of a flat sector, but for the one of [c5] in the top cap,
    are the face normals of the triangles of the sector. *)
Lemma flat_normals_but_one (radius height a0 a1 : R) :
  let c := CylindricalVolume.sectorCorners radius height a0 a1 in
  Forall
    (fun k =>
       nth k (CylindricalVolume.sectorNormal true c) vzero
       = faceNormal (triangleOf (CylindricalVolume.sectorVolume c) k))
    [0; 1; 2; 3; 4; 5; 6; 7; 8; 9; 11]%nat.
Proof.
  intros c. subst c.
  repeat (apply Forall_cons; [cbn; vec_eq|]). apply Forall_nil.
Qed.

(** C2.  With [flatFaces], the normal stored for vertex [c5] of the top cap
    (row 10 of every sector) is [cross(c6 - c5, c5 - c5)], the zero vector,
    whatever the sector: it has no direction.  The eleven other rows hold
    the face normal of their triangle.  For radius 1, height 1 and the
    angles 0 and pi/2 the face normal of the top cap is (0, 0, 1). *)
Theorem flat_normal_of_top_cap_c5_is_zero :
  (forall (radius height a0 a1 : R) (flatFaces : bool),
      nth 10 (CylindricalVolume.sectorNormal flatFaces
                (CylindricalVolume.sectorCorners radius height a0 a1)) vzero
      = vzero)
  /\ (forall radius height a0 a1 : R,
        let c := CylindricalVolume.sectorCorners radius height a0 a1 in
        Forall
          (fun k =>
             nth k (CylindricalVolume.sectorNormal true c) vzero
             = faceNormal (triangleOf (CylindricalVolume.sectorVolume c) k))
          [0; 1; 2; 3; 4; 5; 6; 7; 8; 9; 11]%nat)
  /\ nth 10 (CylindricalVolume.normalRows 1 1 [0; PI / 2] true) vzero = vzero
  /\ faceNormal
       (triangleOf (CylindricalVolume.volumeRows 1 1 [0; PI / 2]) 10)
     = mkVec 0 0 1.
Proof.
  split; [|split; [|split]].
  - intros radius height a0 a1 [|]; cbn; vec_eq.
  - exact flat_normals_but_one.
  - cbn. vec_eq.
  - cbn. rewrite cos_0, sin_0, cos_PI2, sin_PI2. vec_eq.
Qed.

Lemma flat_normals_are_face_normals_fails : ~ flat_normals_are_face_normals.
Proof.
  intros H.
  specialize (H 1 1 0 (PI / 2) 10%nat ltac:(lia)).
  cbn in H. rewrite cos_0, sin_0, cos_PI2, sin_PI2 in H.
  injection H as _ _ Hz.
  lra.
Qed.

Lemma flat_map_rows_length {A B : Type} (f : A -> list B) (k : nat)
    (l : list A) :
  (forall x, List.length (f x) = k) ->
  List.length (flat_map f l) = (List.length l * k)%nat.
Proof.
  intros H. induction l as [|x l IH]; [reflexivity|].
  cbn [flat_map List.length]. rewrite length_app, H, IH. lia.
Qed.

Lemma sectorNormal_length (flatFaces : bool) (k : CylindricalVolume.corners) :
  List.length (CylindricalVolume.sectorNormal flatFaces k) = 12%nat.
Proof. destruct k, flatFaces; reflexivity. Qed.

Lemma volumeRows_length (radius height : R) (angles : list R) :
  List.length (CylindricalVolume.volumeRows radius height angles)
  = ((List.length angles - 1) * 12)%nat.
Proof.
  unfold CylindricalVolume.volumeRows.
  rewrite (flat_map_rows_length _ 12) by reflexivity.
  now rewrite length_seq.
Qed.

Lemma normalRows_length (radius height : R) (angles : list R)
    (flatFaces : bool) :
  List.length (CylindricalVolume.normalRows radius height angles flatFaces)
  = ((List.length angles - 1) * 12)%nat.
Proof.
  unfold CylindricalVolume.normalRows.
  rewrite (flat_map_rows_length _ 12)
    by (intros; apply sectorNormal_length).
  now rewrite length_seq.
Qed.

Lemma tileRows_length (rows : list vec3) (n : nat) :
  List.length (CylindricalVolume.tileRows rows n)
  = (n * List.length rows)%nat.
Proof.
  unfold CylindricalVolume.tileRows.
  induction n as [|n IH]; [reflexivity|].
  cbn [repeat List.concat]. rewrite length_app, IH. lia.
Qed.

Lemma tileEach_length (position : list vec3) (k : nat) :
  List.length (CylindricalVolume.tileEach position k)
  = (List.length position * k)%nat.
Proof.
  unfold CylindricalVolume.tileEach.
  apply flat_map_rows_length. intros p. apply repeat_length.
Qed.

Lemma addRows_ok (a b : list vec3) :
  List.length a = List.length b ->
  CylindricalVolume.addRows a b
  = Ok (map (fun p => vadd (fst p) (snd p)) (combine a b)).
Proof.
  intros H. unfold CylindricalVolume.addRows.
  now rewrite H, Nat.eqb_refl.
Qed.

(** The mesh [_setData] builds from at least one position and one angle. *)
Lemma setData_mesh (self : item3D) (position : list vec3)
    (radius height : R) (angles : list R) (c : color) (flatFaces : bool) :
  position <> [] -> angles <> [] ->
  let k := ((List.length angles - 1) * 12)%nat in
  let n := List.length position in
  let m :=
    mkMesh3D
      (map (fun p => vadd (fst p) (snd p))
           (combine
              (CylindricalVolume.tileRows
                 (CylindricalVolume.volumeRows radius height angles) n)
              (CylindricalVolume.tileEach position k)))
      c
      (Some (CylindricalVolume.tileRows
               (CylindricalVolume.normalRows radius height angles flatFaces)
               n))
      "triangles" in
  CylindricalVolume._setData self (Some position) radius height angles c
    flatFaces = Ok (mkItem (MeshObj m) [m]).
Proof.
  intros Hp Ha k n m. unfold CylindricalVolume._setData.
  destruct position as [|p ps]; [congruence|].
  destruct angles as [|a0 angles]; [congruence|].
  cbn [noPosition positions].
  rewrite addRows_ok
    by (rewrite tileRows_length, tileEach_length, volumeRows_length; lia).
  reflexivity.
Qed.

Lemma linspace_length (start stop : R) (num : nat) :
  List.length (linspace start stop num) = num.
Proof. unfold linspace. now rewrite length_map, length_seq. Qed.

Lemma setData_rows (self : item3D) (position : list vec3)
    (radius height : R) (angles : list R) (c : color) (flatFaces : bool) :
  position <> [] -> (2 <= List.length angles)%nat ->
  exists m normals,
    CylindricalVolume._setData self (Some position) radius height angles c
      flatFaces = Ok (mkItem (MeshObj m) [m])
    /\ normalAttr m = Some normals
    /\ List.length (positionAttr m)
       = (List.length position * (List.length angles - 1) * 12)%nat
    /\ List.length normals
       = (List.length position * (List.length angles - 1) * 12)%nat.
Proof.
  intros Hp Ha.
  assert (Hne : angles <> []) by (destruct angles; [cbn in Ha; lia | discriminate]).
  eexists. eexists. split; [apply setData_mesh; assumption|].
  cbn [normalAttr positionAttr]. split; [reflexivity|]. split.
  - rewrite length_map, length_combine, tileRows_length, tileEach_length,
      volumeRows_length. lia.
  - rewrite tileRows_length, normalRows_length. lia.
Qed.

(** C5.  For a non-empty array of positions and at least two angles, the
    vertex and normal buffers [_setData] builds have
    [len(positions) * (len(angles) - 1) * 12] rows (of 3 components); for
    the [k + 1] angles dividing [0, 2 pi] in [k] equal steps this is
    [k * 12] rows for each position. *)
Theorem setData_buffer_rows (self : item3D) (position : list vec3)
    (radius height : R) (c : color) :
  position <> [] ->
  (forall (angles : list R) (flatFaces : bool),
      (2 <= List.length angles)%nat ->
      exists m normals,
        CylindricalVolume._setData self (Some position) radius height
          angles c flatFaces = Ok (mkItem (MeshObj m) [m])
        /\ normalAttr m = Some normals
        /\ List.length (positionAttr m)
           = (List.length position * (List.length angles - 1) * 12)%nat
        /\ List.length normals
           = (List.length position * (List.length angles - 1) * 12)%nat)
  /\
  (forall (k : nat) (flatFaces : bool),
      (1 <= k)%nat ->
      exists m normals,
        CylindricalVolume._setData self (Some position) radius height
          (linspace 0 (2 * PI) (k + 1)) c flatFaces
          = Ok (mkItem (MeshObj m) [m])
        /\ normalAttr m = Some normals
        /\ List.length (positionAttr m)
           = (List.length position * (k * 12))%nat
        /\ List.length normals = (List.length position * (k * 12))%nat).
Proof.
  intros Hp. split.
  - intros angles flatFaces Ha. now apply setData_rows.
  - intros k flatFaces Hk.
    destruct (setData_rows self position radius height
                (linspace 0 (2 * PI) (k + 1)) c flatFaces Hp)
      as (m & normals & Hm & Hn & Hl & Hl').
    { rewrite linspace_length. lia. }
    rewrite linspace_length in Hl, Hl'.
    exists m, normals. repeat split; try assumption; lia.
Qed.

(** One position; the two angles 0 and pi / 2 give 12 rows, the three
    angles 0, pi, 2 pi give 24. *)
Lemma setData_buffer_rows_witness :
  (exists m normals,
      CylindricalVolume._setData init (Some [mkVec 0 0 0]) 1 1
        [0; PI / 2] [1; 1; 1] true = Ok (mkItem (MeshObj m) [m])
      /\ normalAttr m = Some normals
      /\ List.length (positionAttr m) = 12%nat
      /\ List.length normals = 12%nat)
  /\
  (exists m normals,
      CylindricalVolume._setData init (Some [mkVec 0 0 0]) 1 1
        (linspace 0 (2 * PI) (2 + 1)) [1; 1; 1] false
        = Ok (mkItem (MeshObj m) [m])
      /\ normalAttr m = Some normals
      /\ List.length (positionAttr m) = 24%nat
      /\ List.length normals = 24%nat).
Proof.
  destruct (setData_buffer_rows init [mkVec 0 0 0] 1 1 [1; 1; 1])
    as [H1 H2]; [discriminate|].
  split.
  - exact (H1 [0; PI / 2] true (le_n 2)).
  - exact (H2 2%nat false (le_S 1 1 (le_n 1))).
Defined.

(** *** The box of size (2, 2, 2) *)

Lemma sqrt8 : sqrt (2 * 2 + 2 * 2) = 2 * sqrt 2.
Proof.
  replace (2 * 2 + 2 * 2) with ((2 * 2) * 2) by ring.
  rewrite sqrt_mult by lra. rewrite sqrt_square by lra. reflexivity.
Qed.

Lemma boxAngles_222 :
  Box.boxAngles (2, 2, 2)
  = [- (PI / 4); PI / 4; 3 * (PI / 4); 5 * (PI / 4); - (PI / 4) + 2 * PI].
Proof.
  unfold Box.boxAngles. rewrite sqrt8.
  replace (2 / (2 * sqrt 2)) with (/ sqrt 2)
    by (field; apply sqrt2_neq_0).
  rewrite asin_inv_sqrt2. cbn [map].
  repeat (apply (f_equal2 (@cons R)); [lra|]). reflexivity.
Qed.

(** The four corners of the square, [radius * (cos a, sin a)] at the
    angles of the box, the radius being [sqrt(8) / 2]. *)
Lemma rim_cos_m1 : 2 * sqrt 2 / 2 * cos (- (PI / 4)) = 1.
Proof.
  rewrite cos_neg, cos_PI4. field_simplify; [lra | apply sqrt2_neq_0].
Qed.

Lemma rim_sin_m1 : 2 * sqrt 2 / 2 * sin (- (PI / 4)) = -1.
Proof.
  rewrite sin_neg, sin_PI4. field_simplify; [lra | apply sqrt2_neq_0].
Qed.

Lemma rim_cos_1 : 2 * sqrt 2 / 2 * cos (PI / 4) = 1.
Proof. rewrite cos_PI4. field_simplify; [lra | apply sqrt2_neq_0]. Qed.

Lemma rim_sin_1 : 2 * sqrt 2 / 2 * sin (PI / 4) = 1.
Proof. rewrite sin_PI4. field_simplify; [lra | apply sqrt2_neq_0]. Qed.

Lemma rim_cos_3 : 2 * sqrt 2 / 2 * cos (3 * (PI / 4)) = -1.
Proof. rewrite cos_3PI4. field_simplify; [lra | apply sqrt2_neq_0]. Qed.

Lemma rim_sin_3 : 2 * sqrt 2 / 2 * sin (3 * (PI / 4)) = 1.
Proof. rewrite sin_3PI4. field_simplify; [lra | apply sqrt2_neq_0]. Qed.

Lemma rim_cos_5 : 2 * sqrt 2 / 2 * cos (5 * (PI / 4)) = -1.
Proof. rewrite cos_5PI4. field_simplify; [lra | apply sqrt2_neq_0]. Qed.

Lemma rim_sin_5 : 2 * sqrt 2 / 2 * sin (5 * (PI / 4)) = -1.
Proof. rewrite sin_5PI4. field_simplify; [lra | apply sqrt2_neq_0]. Qed.

Lemma rim_cos_7 : 2 * sqrt 2 / 2 * cos (- (PI / 4) + 2 * PI) = 1.
Proof.
  rewrite cos_plus, cos_2PI, sin_2PI, cos_neg, cos_PI4.
  field_simplify; [lra | apply sqrt2_neq_0].
Qed.

Lemma rim_sin_7 : 2 * sqrt 2 / 2 * sin (- (PI / 4) + 2 * PI) = -1.
Proof.
  rewrite sin_plus, cos_2PI, sin_2PI, sin_neg, sin_PI4.
  field_simplify; [lra | apply sqrt2_neq_0].
Qed.

Lemma fold_Rmin (m : R) (r : list R) (x : R) :
  m <= x -> Forall (fun y => m <= y) r -> x = m \/ In m r ->
  fold_left Rmin r x = m.
Proof.
  revert x. induction r as [|y r IH]; intros x Hx Hr Hin; cbn [fold_left].
  - destruct Hin as [-> | []]. reflexivity.
  - inversion Hr as [|? ? Hy Hr']; subst.
    apply IH; [now apply Rmin_glb | assumption |].
    destruct Hin as [-> | [-> | Hin]].
    + left. now apply Rmin_left.
    + left. now apply Rmin_right.
    + now right.
Qed.

Lemma fold_Rmax (m : R) (r : list R) (x : R) :
  x <= m -> Forall (fun y => y <= m) r -> x = m \/ In m r ->
  fold_left Rmax r x = m.
Proof.
  revert x. induction r as [|y r IH]; intros x Hx Hr Hin; cbn [fold_left].
  - destruct Hin as [-> | []]. reflexivity.
  - inversion Hr as [|? ? Hy Hr']; subst.
    apply IH; [now apply Rmax_lub | assumption |].
    destruct Hin as [-> | [-> | Hin]].
    + left. now apply Rmax_left.
    + left. now apply Rmax_right.
    + now right.
Qed.

(** The minimum of an array is its least item. *)
Lemma minimum_least (m : R) (l : list R) :
  In m l -> Forall (fun y => m <= y) l -> minimum l = m.
Proof.
  destruct l as [|x r]; [intros []|]. intros Hin Hl.
  inversion Hl; subst. cbn [minimum].
  apply fold_Rmin; [assumption | assumption |].
  destruct Hin as [-> | Hin]; [now left | now right].
Qed.

Lemma maximum_greatest (m : R) (l : list R) :
  In m l -> Forall (fun y => y <= m) l -> maximum l = m.
Proof.
  destruct l as [|x r]; [intros []|]. intros Hin Hl.
  inversion Hl; subst. cbn [maximum].
  apply fold_Rmax; [assumption | assumption |].
  destruct Hin as [-> | Hin]; [now left | now right].
Qed.

(** The vertices of the box of size (2, 2, 2) at [center]: the corners
    of the cube and the centres of its two caps. *)
Lemma box_222_vertices (self : item3D) (center : vec3) (c : color) :
  exists m,
    Box.setData self [center] (2, 2, 2) c = Ok (mkItem (MeshObj m) [m])
    /\ positionAttr m
       = map (fun v => vadd v center)
           (flat_map
              (fun s : (R * R) * (R * R) =>
                 let '((x0, y0), (x1, y1)) := s in
                 let c1 := mkVec 0 0 (- 2 / 2) in
                 let c2 := mkVec x0 y0 (- 2 / 2) in
                 let c3 := mkVec x1 y1 (- 2 / 2) in
                 let c4 := mkVec x0 y0 (2 / 2) in
                 let c5 := mkVec x1 y1 (2 / 2) in
                 let c6 := mkVec 0 0 (2 / 2) in
                 [c1; c3; c2; c2; c3; c4; c3; c5; c4; c4; c5; c6])
              [((1, -1), (1, 1)); ((1, 1), (-1, 1));
               ((-1, 1), (-1, -1)); ((-1, -1), (1, -1))]).
Proof.
  eexists. split.
  - unfold Box.setData. apply setData_mesh; [discriminate|].
    rewrite boxAngles_222. discriminate.
  - cbn [positionAttr]. rewrite boxAngles_222, sqrt8.
    cbn -[Rmult Rdiv Rplus Ropp cos sin PI sqrt Rinv].
    rewrite rim_cos_m1, rim_sin_m1, rim_cos_1, rim_sin_1, rim_cos_3,
      rim_sin_3, rim_cos_5, rim_sin_5, rim_cos_7, rim_sin_7.
    reflexivity.
Qed.

Ltac in_list := cbn [In]; repeat first [left; lra | right].
Ltac all_list :=
  repeat (apply Forall_cons; [lra|]); apply Forall_nil.

(** C7.  [Box.setData] with [size = (2, 2, 2)] and one center builds a
    vertex buffer whose bounding box is the cube [-1, 1]^3 translated by
    the center; the angles are those derived from the diagonal
    [d = sqrt(sx^2 + sy^2)], here -pi/4, pi/4, 3 pi/4, 5 pi/4, 7 pi/4.
    Floats are taken as real numbers, so the equality is exact. *)
Theorem box_222_bounding_box (self : item3D) (center : vec3) (c : color) :
  exists m,
    Box.setData self [center] (2, 2, 2) c = Ok (mkItem (MeshObj m) [m])
    /\ Box.boxAngles (2, 2, 2)
       = [- (PI / 4); PI / 4; 3 * (PI / 4); 5 * (PI / 4);
          - (PI / 4) + 2 * PI]
    /\ List.length (positionAttr m) = 48%nat
    /\ boundingBox (positionAttr m)
       = (vsub center (mkVec 1 1 1), vadd center (mkVec 1 1 1)).
Proof.
  destruct (box_222_vertices self center c) as (m & Hm & Hp).
  exists m. split; [exact Hm|]. split; [exact boxAngles_222|].
  rewrite Hp. split; [reflexivity|].
  unfold boundingBox, vsub, vadd.
  cbn [map flat_map app vx vy vz].
  f_equal; f_equal.
  - apply minimum_least; [in_list | all_list].
  - apply minimum_least; [in_list | all_list].
  - apply minimum_least; [in_list | all_list].
  - apply maximum_greatest; [in_list | all_list].
  - apply maximum_greatest; [in_list | all_list].
  - apply maximum_greatest; [in_list | all_list].
Qed.

End MeshFacts.

(** * Further properties of the profile tools *)

Section MoreProfileFacts.
Local Open Scope Z_scope.

(** The full profile as column means over the clamped band. *)
Lemma alignedFullProfile_means
    (image : ndarray2) (origin scale : Q * Q) (position : Q)
    (roiWidth axis : Z) :
  axis = 0 \/ axis = 1 ->
  Qeq_bool (pick (1 - axis) scale) 0 = false ->
  let img := if axis =? 1 then transpose image else image in
  let height := Z.of_nat (shape0 img) in
  let imgPos := int_of_float ((position - pick (1 - axis) origin)
                              / pick (1 - axis) scale) in
  1 <= height -> 1 <= roiWidth ->
  exists start a,
    roiBand height roiWidth imgPos =
      (Z.min height roiWidth, start, start + Z.min height roiWidth)
    /\ 0 <= start
    /\ start + Z.min height roiWidth <= height
    /\ _alignedFullProfile image origin scale position roiWidth axis =
         Ok (map (fun c =>
                    mean (map (fun r => item img r c)
                              (seq (Z.to_nat start)
                                   (Z.to_nat (Z.min height roiWidth)))))
                 (seq 0 (shape1 img)),
             a).
Proof.
  intros Hax Hs img height imgPos Hh Hw.
  destruct (roiBand_inside height roiWidth imgPos Hh Hw)
    as (start & E & H0 & H1).
  destruct (alignedFullProfile_unfold image origin scale position roiWidth
              axis Hax Hs _ _ _ E) as (a & Hp).
  fold img in Hp. fold height in Hp.
  exists start, a. repeat split; try assumption.
  rewrite Hp.
  replace ((start <? height) && (start + Z.min height roiWidth >? 0))
    with true
    by (symmetry; apply andb_true_iff;
        split; [apply Z.ltb_lt | apply Z.gtb_lt]; lia).
  f_equal. f_equal.
  rewrite mean_axis0_slice_rows by (fold height; lia).
  apply map_ext. intros c. do 3 f_equal; lia.
Qed.

(** X1.  Through [updateProfile], a horizontal or vertical profile of an
    image with at least one row along the reduced axis is never the zero
    fallback, whatever the spin box holds: the width is
    [min(height, max(1, spin))] and the profile consists of the column means
    over that many rows inside the image. *)
Theorem updateProfile_full_modes_use_image_rows
    profile_line fsqrt (tb : toolBar) (roiStart roiEnd : Q * Q)
    (m : projection) (data : ndarray2) (origin scale : Q * Q)
    (axis : Z) (position : Q) :
  _roiInfo tb = Some (roiStart, roiEnd, m) ->
  getActiveImage tb = Some (data, origin, scale) ->
  (m = ModeX /\ axis = 0 /\ position = snd roiStart)
  \/ (m = ModeY /\ axis = 1 /\ position = fst roiStart) ->
  Qeq_bool (pick (1 - axis) scale) 0 = false ->
  let img := if axis =? 1 then transpose data else data in
  let height := Z.of_nat (shape0 img) in
  let w := Z.min height (Z.max 1 (lineWidthSpinBox tb)) in
  let imgPos := int_of_float ((position - pick (1 - axis) origin)
                              / pick (1 - axis) scale) in
  1 <= height ->
  exists start a,
    roiBand height (Z.max 1 (lineWidthSpinBox tb)) imgPos
      = (w, start, start + w)
    /\ 0 <= start /\ start + w <= height /\ 1 <= w
    /\ updateProfile profile_line fsqrt tb
       = Ok (Some
               (map (fun c =>
                       mean (map (fun r => item img r c)
                                 (seq (Z.to_nat start) (Z.to_nat w))))
                    (seq 0 (shape1 img)),
                a)).
Proof.
  intros Hroi Himg Hm Hs img height w imgPos Hh.
  assert (Hax : axis = 0 \/ axis = 1) by (destruct Hm as [H | H]; tauto).
  destruct (alignedFullProfile_means data origin scale position
              (Z.max 1 (lineWidthSpinBox tb)) axis Hax Hs Hh ltac:(lia))
    as (start & a & E & H0 & H1 & Hp).
  fold img in Hp. fold height in Hp, H1. fold w in Hp, H1.
  exists start, a. repeat split; try assumption; [subst w; lia|].
  unfold updateProfile. rewrite Hroi, Himg.
  destruct Hm as [(-> & -> & ->) | (-> & -> & ->)];
    rewrite Hp; reflexivity.
Qed.

(** A spin box at 0 and a line at y = 100, above a 2 x 2 image: the last
    row is the profile. *)
Lemma updateProfile_full_modes_use_image_rows_witness :
  exists a,
    updateProfile (fun _ _ _ _ => []) (fun x => x)
      (mkToolBar (Some ((0, 100)%Q, (5, 100)%Q, ModeX)) 0
                 (Some (of_rows 2 [[1; 2]; [3; 4]]%Q, (0, 0)%Q, (1, 1)%Q)))
    = Ok (Some ([Val 3; Val 4], a)).
Proof.
  destruct (updateProfile_full_modes_use_image_rows
              (fun _ _ _ _ => []) (fun x => x)
              (mkToolBar (Some ((0, 100)%Q, (5, 100)%Q, ModeX)) 0
                 (Some (of_rows 2 [[1; 2]; [3; 4]]%Q, (0, 0)%Q, (1, 1)%Q)))
              (0, 100)%Q (5, 100)%Q ModeX
              (of_rows 2 [[1; 2]; [3; 4]]%Q) (0, 0)%Q (1, 1)%Q 0 100%Q
              eq_refl eq_refl
              (or_introl (conj eq_refl (conj eq_refl eq_refl))) eq_refl)
    as (start & a & E & _ & _ & _ & Hp); [cbv; discriminate|].
  vm_compute in E. injection E as <-.
  exists a. exact Hp.
Defined.

Lemma clip_inside (n : nat) (v : Z) :
  0 <= v <= Z.of_nat n -> clip n v = Z.to_nat v.
Proof. intros H. unfold clip. f_equal. lia. Qed.

(** A ROI inside the image: the profile is the list of means, without
    padding. *)
Lemma alignedPartialProfile_inside_means (image : ndarray2)
    (r0 r1 c0 c1 : Z) (axis : Z) :
  axis = 0 \/ axis = 1 ->
  0 <= r0 < r1 -> r1 <= Z.of_nat (shape0 image) ->
  0 <= c0 < c1 -> c1 <= Z.of_nat (shape1 image) ->
  _alignedPartialProfile image (r0, r1) (c0, c1) axis
  = Ok (intersectionMeans image (r0, r1) (c0, c1) axis).
Proof.
  intros Hax Hr0 Hr1 Hc0 Hc1.
  destruct (alignedPartialProfile_layout image (r0, r1) (c0, c1) axis Hax)
    as (profile & Hp & Hl & _ & Hfull); [cbn; lia | cbn; lia |].
  rewrite Hp. f_equal.
  assert (Hlen : List.length (intersectionMeans image (r0, r1) (c0, c1) axis)
                 = Z.to_nat (Z.abs (snd (if axis =? 0 then (c0, c1) else (r0, r1))
                                    - fst (if axis =? 0 then (c0, c1) else (r0, r1))))).
  { rewrite intersectionMeans_length. cbn [fst snd].
    rewrite !clip_inside by lia. destruct (axis =? 0); cbn [fst snd]; lia. }
  destruct Hfull as [_ ->].
  - intros E. rewrite E in Hlen. cbn [List.length] in Hlen.
    destruct (axis =? 0); cbn [fst snd] in Hlen; lia.
  - rewrite Hlen.
    replace (Z.to_nat (- Z.min 0 (fst (if axis =? 0 then (c0, c1) else (r0, r1)))))
      with 0%nat by (destruct (axis =? 0); cbn [fst]; lia).
    rewrite Nat.sub_0_r, Nat.sub_diag. cbn [zeros repeat app].
    apply app_nil_r.
Qed.

(** X2.  When the ROI lies inside the image, [_alignedPartialProfile]
    returns exactly one mean per column (axis 0) or per row (axis 1) of the
    ROI: each sample is the sum of the ROI items of that column (row)
    divided by their number; there is neither padding nor [nan]. *)
Theorem alignedPartialProfile_inside_image (image : ndarray2)
    (r0 r1 c0 c1 : Z) (axis : Z) :
  axis = 0 \/ axis = 1 ->
  0 <= r0 < r1 -> r1 <= Z.of_nat (shape0 image) ->
  0 <= c0 < c1 -> c1 <= Z.of_nat (shape1 image) ->
  let rows := seq (Z.to_nat r0) (Z.to_nat (r1 - r0)) in
  let cols := seq (Z.to_nat c0) (Z.to_nat (c1 - c0)) in
  _alignedPartialProfile image (r0, r1) (c0, c1) axis
  = Ok (if axis =? 0
        then map (fun c => Val (Qsum (map (fun r => item image r c) rows)
                                / inject_Z (r1 - r0))) cols
        else map (fun r => Val (Qsum (map (fun c => item image r c) cols)
                                / inject_Z (c1 - c0))) rows).
Proof.
  intros Hax Hr0 Hr1 Hc0 Hc1 rows cols.
  rewrite alignedPartialProfile_inside_means by assumption.
  f_equal. unfold intersectionMeans. cbn [fst snd].
  rewrite !clip_inside by lia.
  replace (Z.to_nat r1 - Z.to_nat r0)%nat with (Z.to_nat (r1 - r0)) by lia.
  replace (Z.to_nat c1 - Z.to_nat c0)%nat with (Z.to_nat (c1 - c0)) by lia.
  fold rows. fold cols.
  assert (Hrows : List.length rows = Z.to_nat (r1 - r0))
    by (subst rows; apply length_seq).
  assert (Hcols : List.length cols = Z.to_nat (c1 - c0))
    by (subst cols; apply length_seq).
  destruct (axis =? 0); apply map_ext; intros k.
  - rewrite mean_nonempty.
    + rewrite length_map, Hrows, Z2Nat.id by lia. reflexivity.
    + intros E. apply (f_equal (@List.length Q)) in E.
      rewrite length_map, Hrows in E. cbn in E. lia.
  - rewrite mean_nonempty.
    + rewrite length_map, Hcols, Z2Nat.id by lia. reflexivity.
    + intros E. apply (f_equal (@List.length Q)) in E.
      rewrite length_map, Hcols in E. cbn in E. lia.
Qed.

(** Rows 0 and 1, column 1 of [[1, 2], [3, 4]]: the mean (2 + 4) / 2. *)
Lemma alignedPartialProfile_inside_image_witness :
  _alignedPartialProfile (of_rows 2 [[1; 2]; [3; 4]]%Q) (0, 2) (1, 2) 0
  = Ok [Val (6 # 2)].
Proof.
  exact (alignedPartialProfile_inside_image
           (of_rows 2 [[1; 2]; [3; 4]]%Q) 0 2 1 2 0
           (or_introl eq_refl)
           (conj (Z.le_refl 0) eq_refl) (Z.le_refl 2)
           (conj (Zle_0_pos 1) eq_refl) (Z.le_refl 2)).
Defined.

(** X3.  The two profile functions agree: the full profile of
    [_alignedFullProfile] is the partial profile of
    [_alignedPartialProfile] over the clamped band [start, end[ and the
    whole extent of the image along the profile axis. *)
Theorem alignedFullProfile_is_partial_profile_of_band
    (image : ndarray2) (origin scale : Q * Q) (position : Q)
    (roiWidth axis : Z) :
  axis = 0 \/ axis = 1 ->
  Qeq_bool (pick (1 - axis) scale) 0 = false ->
  let img := if axis =? 1 then transpose image else image in
  let height := Z.of_nat (shape0 img) in
  let imgPos := int_of_float ((position - pick (1 - axis) origin)
                              / pick (1 - axis) scale) in
  1 <= height -> (1 <= shape1 img)%nat -> 1 <= roiWidth ->
  exists w start profile a,
    roiBand height roiWidth imgPos = (w, start, start + w)
    /\ _alignedFullProfile image origin scale position roiWidth axis
       = Ok (profile, a)
    /\ _alignedPartialProfile image
         (if axis =? 0 then (start, start + w)
          else (0, Z.of_nat (shape0 image)))
         (if axis =? 0 then (0, Z.of_nat (shape1 image))
          else (start, start + w))
         axis
       = Ok profile.
Proof.
  intros Hax Hs img height imgPos Hh Hwd Hw.
  destruct (alignedFullProfile_means image origin scale position roiWidth
              axis Hax Hs Hh Hw) as (start & a & E & H0 & H1 & Hp).
  fold img in Hp. fold height in Hp, H1, E. fold imgPos in E.
  exists (Z.min height roiWidth), start. eexists. exists a.
  split; [exact E|]. split; [exact Hp|].
  clear E Hp. subst imgPos img height.
  remember (Z.min _ roiWidth) as w eqn:Ew.
  assert (Hw1 : 1 <= w) by lia.
  clear Ew.
  destruct Hax as [-> | ->];
    change (1 =? 1) with true in *; change (0 =? 1) with false in *;
    change (0 =? 0) with true; change (1 =? 0) with false;
    cbn [transpose shape0 shape1 item] in *; cbn iota.
  - rewrite alignedPartialProfile_inside_means
      by (try (left; reflexivity); lia).
    f_equal. unfold intersectionMeans. cbn [fst snd Z.eqb].
    rewrite !clip_inside by lia.
    replace (Z.to_nat (start + w) - Z.to_nat start)%nat with (Z.to_nat w)
      by lia.
    now rewrite Nat2Z.id, Nat.sub_0_r.
  - rewrite alignedPartialProfile_inside_means
      by (try (right; reflexivity); lia).
    f_equal. unfold intersectionMeans. cbn [fst snd Z.eqb].
    rewrite !clip_inside by lia.
    replace (Z.to_nat (start + w) - Z.to_nat start)%nat with (Z.to_nat w)
      by lia.
    now rewrite Nat2Z.id, Nat.sub_0_r.
Qed.

Lemma alignedFullProfile_is_partial_profile_of_band_witness :
  exists a,
    _alignedFullProfile (of_rows 2 [[1; 2]; [3; 4]]%Q) (0, 0)%Q (1, 1)%Q
                        0%Q 1 1 = Ok ([Val 1; Val 3], a)
    /\ _alignedPartialProfile (of_rows 2 [[1; 2]; [3; 4]]%Q) (0, 2) (0, 1) 1
       = Ok [Val 1; Val 3].
Proof.
  destruct (alignedFullProfile_is_partial_profile_of_band
              (of_rows 2 [[1; 2]; [3; 4]]%Q) (0, 0)%Q (1, 1)%Q 0%Q 1 1
              (or_intror eq_refl) eq_refl)
    as (w & start & profile & a & E & Hf & Hp);
    [cbv; discriminate | cbv; lia | lia |].
  vm_compute in E. injection E as <- <-.
  exists a. rewrite Hf. split; [|reflexivity].
  do 2 f_equal.
  assert (Hq := Hp). cbn in Hq. injection Hq as <-. reflexivity.
Defined.

(** Truncation does not depend on how the rational is written. *)
Lemma int_of_float_Qeq (a b : Q) :
  (a == b)%Q -> int_of_float a = int_of_float b.
Proof.
  unfold Qeq, int_of_float. intros E.
  rewrite <- (Z.quot_mul_cancel_r (Qnum a) (QDen a) (QDen b)) by lia.
  rewrite <- (Z.quot_mul_cancel_r (Qnum b) (QDen b) (QDen a)) by lia.
  rewrite E. f_equal. ring.
Qed.

(** The end points of an axis-aligned line are put in the same order
    whichever comes first. *)
Lemma aligned_order_sym (a b c d : Z) :
  a = c \/ b = d ->
  (if (a >? c) || (b >? d) then ((c, d), (a, b)) else ((a, b), (c, d)))
  = (if (c >? a) || (d >? b) then ((a, b), (c, d)) else ((c, d), (a, b))).
Proof.
  intros H. rewrite !Z.gtb_ltb.
  destruct (Z.ltb_spec c a), (Z.ltb_spec d b), (Z.ltb_spec a c),
    (Z.ltb_spec b d); cbn [orb]; try reflexivity; try lia.
  assert (a = c) by lia. assert (b = d) by lia. subst. reflexivity.
Qed.

Lemma oblique_order_sym {A : Type} (r0 c0 r1 c1 : Q) (x y : A) :
  ~ (c0 == c1)%Q ->
  (if Qlt_le_dec c1 c0 then (y, x)
   else if Qeq_bool c0 c1
        then if Qlt_le_dec r1 r0 then (y, x) else (x, y)
        else (x, y))
  = (if Qlt_le_dec c0 c1 then (x, y)
     else if Qeq_bool c1 c0
          then if Qlt_le_dec r0 r1 then (x, y) else (y, x)
          else (y, x)).
Proof.
  intros Hne.
  assert (E1 : Qeq_bool c0 c1 = false).
  { destruct (Qeq_bool c0 c1) eqn:E; [|reflexivity].
    apply Qeq_bool_iff in E. contradiction. }
  assert (E2 : Qeq_bool c1 c0 = false).
  { destruct (Qeq_bool c1 c0) eqn:E; [|reflexivity].
    apply Qeq_bool_iff in E. symmetry in E. contradiction. }
  rewrite E1, E2.
  destruct (Qlt_le_dec c1 c0) as [H1 | H1], (Qlt_le_dec c0 c1) as [H2 | H2];
    try reflexivity.
  - exfalso. apply (Qlt_irrefl c0). now apply Qlt_trans with c1.
  - exfalso. apply Hne. now apply Qle_antisym.
Qed.

(** X4.  The profile along a free line does not depend on the direction
    in which the line was drawn: swapping [roiStart] and [roiEnd] gives the
    same profile and the same ROI polygon (or the same error). *)
Theorem freeLineProfile_drag_direction
    profile_line fsqrt (data : ndarray2) (origin scale : Q * Q)
    (p q : Q * Q) (roiWidth : Z) :
  freeLineProfile profile_line fsqrt data origin scale p q roiWidth
  = freeLineProfile profile_line fsqrt data origin scale q p roiWidth.
Proof.
  unfold freeLineProfile, truediv.
  destruct (Qeq_bool (snd scale) 0); [reflexivity|].
  destruct (Qeq_bool (fst scale) 0); [reflexivity|].
  cbn [bind].
  set (r0 := ((snd p - snd origin) / snd scale)%Q).
  set (c0 := ((fst p - fst origin) / fst scale)%Q).
  set (r1 := ((snd q - snd origin) / snd scale)%Q).
  set (c1 := ((fst q - fst origin) / fst scale)%Q).
  rewrite (Z.eqb_sym (int_of_float r1)), (Z.eqb_sym (int_of_float c1)).
  destruct ((int_of_float r0 =? int_of_float r1)
            || (int_of_float c0 =? int_of_float c1)) eqn:Hal.
  - unfold alignedLineProfile. cbn [fst snd].
    rewrite aligned_order_sym; [reflexivity|].
    apply orb_true_iff in Hal.
    destruct Hal as [H | H]; apply Z.eqb_eq in H; tauto.
  - apply orb_false_iff in Hal. destruct Hal as [_ Hc].
    apply Z.eqb_neq in Hc.
    assert (Hne : ~ (c0 == c1)%Q)
      by (intros E; apply Hc; now apply int_of_float_Qeq).
    unfold obliqueLineProfile. cbn [fst snd].
    rewrite (oblique_order_sym r0 c0 r1 c1 (r0, c0) (r1, c1) Hne).
    reflexivity.
Qed.

Ltac aligned_partial :=
  match goal with
  | |- context [_alignedPartialProfile ?d ?rr ?cc ?ax] =>
      let pf := fresh "pf" in
      let Hp := fresh "Hp" in
      let Hl := fresh "Hl" in
      destruct (alignedPartialProfile_layout d rr cc ax)
        as (pf & Hp & Hl & _);
      [ first [left; reflexivity | right; reflexivity]
      | first [apply centeredRange_ordered; lia | cbn [fst snd]; lia]
      | first [apply centeredRange_ordered; lia | cbn [fst snd]; lia]
      | rewrite Hp; cbn [bind]; eexists; eexists;
        split; [reflexivity|];
        rewrite Hl; cbn [Z.eqb fst snd]; lia ]
  end.

(** X5.  A free line whose ends fall in the same image row or in the same
    image column always gives a profile (the ranges handed to
    [_alignedPartialProfile] are never degenerate for a width of at least
    one), with one sample per pixel from one end to the other, both ends
    included. *)
Theorem freeLineProfile_aligned_length
    profile_line fsqrt (data : ndarray2) (origin scale : Q * Q)
    (p q : Q * Q) (roiWidth : Z) :
  Qeq_bool (fst scale) 0 = false ->
  Qeq_bool (snd scale) 0 = false ->
  1 <= roiWidth ->
  let R0 := int_of_float ((snd p - snd origin) / snd scale) in
  let C0 := int_of_float ((fst p - fst origin) / fst scale) in
  let R1 := int_of_float ((snd q - snd origin) / snd scale) in
  let C1 := int_of_float ((fst q - fst origin) / fst scale) in
  R0 = R1 \/ C0 = C1 ->
  exists profile a,
    freeLineProfile profile_line fsqrt data origin scale p q roiWidth
      = Ok (profile, a)
    /\ Z.of_nat (List.length profile)
       = if R0 =? R1 then Z.abs (C1 - C0) + 1 else Z.abs (R1 - R0) + 1.
Proof.
  intros Hx Hy Hw R0 C0 R1 C1 Hal.
  unfold freeLineProfile. rewrite !truediv_ok by assumption. cbn [bind].
  fold R0 C0 R1 C1.
  replace ((R0 =? R1) || (C0 =? C1)) with true
    by (symmetry; apply orb_true_iff;
        destruct Hal; [left | right]; now apply Z.eqb_eq).
  unfold alignedLineProfile. cbn [fst snd]. fold R0 C0 R1 C1.
  rewrite !Z.gtb_ltb.
  destruct (Z.ltb_spec R1 R0), (Z.ltb_spec C1 C0); cbn [orb fst snd];
    destruct (Z.eqb_spec R0 R1); try lia;
    try (destruct (Z.eqb_spec R1 R0); try lia);
    aligned_partial.
Qed.

(** From (0, 1) to (1, 1) on a 2 x 2 image: two samples. *)
Lemma freeLineProfile_aligned_length_witness :
  exists profile a,
    freeLineProfile (fun _ _ _ _ => []) (fun x => x)
      (of_rows 2 [[1; 2]; [3; 4]]%Q) (0, 0)%Q (1, 1)%Q
      (0, 1)%Q (1, 1)%Q 1 = Ok (profile, a)
    /\ Z.of_nat (List.length profile) = 2.
Proof.
  exact (freeLineProfile_aligned_length (fun _ _ _ _ => []) (fun x => x)
           (of_rows 2 [[1; 2]; [3; 4]]%Q) (0, 0)%Q (1, 1)%Q
           (0, 1)%Q (1, 1)%Q 1 eq_refl eq_refl (Z.le_refl 1)
           (or_introl eq_refl)).
Defined.

End MoreProfileFacts.

(** * Further properties of the position readout *)

Section MorePositionFacts.

Variable format_g7 : Q -> string.


Lemma update_field_converter (style : string) (x y : Q) (f : field) :
  let f' := fst (update_field format_g7 style x y f) in
  name f' = name f /\ func f' = func f /\ styleSheet f' = style.
Proof.
  unfold update_field. destruct (func f x y); cbn; auto.
Qed.

(** X6.  The converters are those given to the constructor, and no plot
    event changes them: [getConverters] after [__init__] returns the list
    passed in, and [_plotEvent] leaves [getConverters], the number of fields
    and [autoSnapToActiveCurve] as they were. *)
Theorem getConverters_stable :
  (forall cs, PositionInfo.getConverters (PositionInfo.__init__ (Some cs)) = cs)
  /\ (forall (w : widget) (p : plot) (e : event) (w' : widget),
        _plotEvent format_g7 w p e = Ok w' ->
        PositionInfo.getConverters w' = PositionInfo.getConverters w
        /\ List.length (fields w') = List.length (fields w)
        /\ autoSnapToActiveCurve w' = autoSnapToActiveCurve w).
Proof.
  split.
  - intros cs. unfold PositionInfo.getConverters, PositionInfo.__init__.
    cbn [fields]. rewrite map_map. cbn [name func].
    induction cs as [|[n f] cs IH]; [reflexivity|].
    cbn [map fst snd]. now rewrite IH.
  - intros w p [x y xp yp | kind] w' H; cbn [_plotEvent] in H.
    + destruct (snap w p x y xp yp) as [[[x' y'] style] | err] eqn:Hs;
        cbn [bind] in H; [|discriminate].
      pose proof (update_fields_map format_g7 style x' y' (fields w)) as Hm.
      destruct (update_fields format_g7 style x' y' (fields w)) as [fs l].
      cbn [fst] in Hm. injection H as <-. cbn [fields autoSnapToActiveCurve].
      subst fs. unfold PositionInfo.getConverters. cbn [fields].
      rewrite map_map, length_map. repeat split.
      apply map_ext. intros f.
      destruct (update_field_converter style x' y' f) as (-> & -> & _).
      reflexivity.
    + injection H as <-. auto.
Qed.


End MorePositionFacts.

Lemma getConverters_stable_witness :
  PositionInfo.getConverters
    (PositionInfo.__init__ (Some [("R"%string, fun x y => Ok (Real x))]))
  = [("R"%string, fun x y => Ok (Real x))]
  /\ forall w',
      _plotEvent (fun _ => "1"%string) (PositionInfo.__init__ None)
                 (mkPlot false None (fun _ _ _ => None))
                 (MouseMoved 1 2 10 20) = Ok w' ->
      map fst (PositionInfo.getConverters w') = ["X"; "Y"]%string.
Proof.
  destruct (getConverters_stable (fun _ => "1"%string)) as [H1 H2].
  split; [apply H1|].
  intros w' Hw. destruct (H2 _ _ _ _ Hw) as (-> & _ & _). reflexivity.
Defined.


Section SnapFacts.

(** The point [closest] picks is a point of the curve at minimal squared
    distance from [(x, y)]; there is none only when the curve is empty. *)
Lemma closest_nearest (x y : Q) (pts : list (Q * Q)) :
  match closest x y pts with
  | None => pts = []
  | Some p =>
      In p pts
      /\ Forall (fun q =>
                   ((fst p - x) * (fst p - x) + (snd p - y) * (snd p - y)
                    <= (fst q - x) * (fst q - x) + (snd q - y) * (snd q - y))%Q)
                pts
  end.
Proof.
  induction pts as [|p rest IH]; [reflexivity|].
  cbn [closest]. destruct (closest x y rest) as [b|].
  - destruct IH as [Hin Hall].
    destruct (Qle_bool _ _) eqn:E.
    + apply Qle_bool_iff in E. split; [now left|].
      constructor; [apply Qle_refl|].
      eapply Forall_impl; [|exact Hall]. cbn beta. intros q Hq.
      eapply Qle_trans; [exact E | exact Hq].
    + split; [now right|]. constructor; [|exact Hall].
      apply Qlt_le_weak, Qnot_le_lt. intros H.
      apply Qle_bool_iff in H. congruence.
  - subst rest. split; [now left|].
    constructor; [apply Qle_refl | constructor].
Qed.

(** X8.  What [_plotEvent] displays after snapping: the style is black or
    red; red only when snapping is on, the cursor is shown, and the mouse
    position is kept; and when snapping is on with the cursor shown, black
    means that the curve point nearest to the mouse (in data coordinates)
    has pixel coordinates within 5 pixels of the mouse on both axes -- the
    position returned is then that pair of pixel coordinates. *)
Theorem snap_style_and_position
    (w : widget) (p : plot) (x y xpixel ypixel x' y' : Q) (style : string) :
  snap w p x y xpixel ypixel = Ok (x', y', style) ->
  (style = black \/ style = red)
  /\ (style = red ->
      (x', y') = (x, y)
      /\ autoSnapToActiveCurve w = true /\ getGraphCursor p = true)
  /\ (autoSnapToActiveCurve w = true -> getGraphCursor p = true ->
      style = black ->
      exists c pt,
        getActiveCurve p = Some c
        /\ In pt (points c)
        /\ Forall (fun q =>
                     ((fst pt - x) * (fst pt - x) + (snd pt - y) * (snd pt - y)
                      <= (fst q - x) * (fst q - x)
                         + (snd q - y) * (snd q - y))%Q)
                  (points c)
        /\ dataToPixel p (fst pt) (snd pt) (yaxis c) = Some (x', y')
        /\ (Qabs (x' - xpixel) < 5)%Q
        /\ (Qabs (y' - ypixel) < 5)%Q).
Proof.
  unfold snap. intros H.
  destruct (autoSnapToActiveCurve w), (getGraphCursor p); cbn [andb] in H;
    try (injection H as <- <- <-;
         split; [now left|]; split; intros; discriminate).
  destruct (getActiveCurve p) as [c|];
    [|injection H as <- <- <-;
      split; [now right|]; split; [auto | discriminate]].
  destruct (is_empty (symbol c));
    [injection H as <- <- <-;
     split; [now right|]; split; [auto | discriminate]|].
  pose proof (closest_nearest x y (points c)) as Hc.
  destruct (closest x y (points c)) as [[xc yc]|]; [|discriminate].
  destruct Hc as [Hin Hall].
  destruct (dataToPixel p xc yc (yaxis c)) as [[xp yp]|] eqn:Hd;
    [|injection H as <- <- <-;
      split; [now right|]; split; [auto | discriminate]].
  destruct (Qlt_le_dec (Qabs (xp - xpixel)) 5) as [Hx | Hx];
    [|injection H as <- <- <-;
      split; [now right|]; split; [auto | discriminate]].
  destruct (Qlt_le_dec (Qabs (yp - ypixel)) 5) as [Hy | Hy];
    [|injection H as <- <- <-;
      split; [now right|]; split; [auto | discriminate]].
  injection H as <- <- <-.
  split; [now left|]. split; [discriminate|].
  intros _ _ _. exists c, (xc, yc). cbn [fst snd]. auto 10.
Qed.

(** A curve with the points (0, 0) and (3, 3), drawn ten pixels per unit,
    and the mouse at (1, 2), pixel (2, 2): the readout snaps to pixel
    (0, 0). *)
Lemma snap_style_and_position_witness :
  exists c pt,
    getActiveCurve
      (mkPlot true (Some (mkCurve [(0, 0); (3, 3)]%Q "o" "left"))
              (fun x y _ => Some (x * 10, y * 10)%Q)) = Some c
    /\ In pt (points c)
    /\ dataToPixel
         (mkPlot true (Some (mkCurve [(0, 0); (3, 3)]%Q "o" "left"))
                 (fun x y _ => Some (x * 10, y * 10)%Q))
         (fst pt) (snd pt) (yaxis c) = Some (0 * 10, 0 * 10)%Q.
Proof.
  destruct (snap_style_and_position
              (mkWidget true [] [])
              (mkPlot true (Some (mkCurve [(0, 0); (3, 3)]%Q "o" "left"))
                      (fun x y _ => Some (x * 10, y * 10)%Q))
              1 2 2 2 (0 * 10)%Q (0 * 10)%Q black eq_refl)
    as (_ & _ & H).
  destruct (H eq_refl eq_refl eq_refl) as (c & pt & Hc & Hin & _ & Hd & _).
  exists c, pt. auto.
Defined.

End SnapFacts.

(** * Further properties of the mesh items *)

Section MoreMeshFacts.
Local Open Scope R_scope.

Ltac vec_eq := unfold cross, vsub, vadd, vzero; cbn [vx vy vz]; f_equal; ring.

(** X9.  A mesh item whose [_mesh] is [None] (one that was never given
    data) answers the three array getters with empty data ([None] for the
    normals), but [getDrawMode] reads [self._mesh.drawMode] without testing
    for [None], so it raises, and [getData], which calls it last, raises as
    well. *)
Theorem getters_without_mesh (self : item3D) :
  _mesh self = PyNone ->
  Mesh.getPositionData self = Ok []
  /\ Mesh.getColorData self = Ok []
  /\ Mesh.getNormalData self = Ok None
  /\ Mesh.getDrawMode self = Err AttributeError
  /\ MeshData.getData self = Err AttributeError.
Proof.
  intros H.
  unfold MeshData.getData, Mesh.getPositionData, Mesh.getColorData,
    Mesh.getNormalData, Mesh.getDrawMode.
  rewrite H. repeat split.
Qed.

Lemma getters_without_mesh_witness :
  Mesh.getPositionData init = Ok []
  /\ Mesh.getColorData init = Ok []
  /\ Mesh.getNormalData init = Ok None
  /\ Mesh.getDrawMode init = Err AttributeError
  /\ MeshData.getData init = Err AttributeError.
Proof. exact (getters_without_mesh init eq_refl). Defined.

Lemma combine_app_left {A B : Type} (a a' : list A) (b b' : list B) :
  List.length a = List.length b ->
  combine (a ++ a') (b ++ b') = combine a b ++ combine a' b'.
Proof.
  revert b. induction a as [|x a IH]; intros [|y b] H; cbn in H |- *;
    try discriminate; [reflexivity|].
  f_equal. apply IH. now injection H.
Qed.

Lemma combine_repeat_map (rows : list vec3) (p : vec3) :
  map (fun q => vadd (fst q) (snd q))
      (combine rows (repeat p (List.length rows)))
  = map (fun v => vadd v p) rows.
Proof.
  induction rows as [|v rows IH]; [reflexivity|].
  cbn. now rewrite IH.
Qed.

(** Tiling the rows and adding the tiled positions translates one copy of
    the rows by each position. *)
Lemma tiled_translation (rows position : list vec3) :
  map (fun q => vadd (fst q) (snd q))
      (combine (CylindricalVolume.tileRows rows (List.length position))
               (CylindricalVolume.tileEach position (List.length rows)))
  = flat_map (fun p => map (fun v => vadd v p) rows) position.
Proof.
  unfold CylindricalVolume.tileRows, CylindricalVolume.tileEach.
  induction position as [|p ps IH]; [reflexivity|].
  cbn [List.length repeat List.concat flat_map].
  rewrite combine_app_left by (now rewrite repeat_length).
  rewrite map_app, combine_repeat_map. f_equal. exact IH.
Qed.

Lemma tileRows_flat_map (rows position : list vec3) :
  CylindricalVolume.tileRows rows (List.length position)
  = flat_map (fun _ => rows) position.
Proof.
  unfold CylindricalVolume.tileRows.
  induction position as [|p ps IH]; [reflexivity|].
  cbn [List.length repeat List.concat flat_map]. now rewrite IH.
Qed.

(** The mesh of [_setData], instance by instance. *)
Lemma setData_instances (self : item3D) (position : list vec3)
    (radius height : R) (angles : list R) (c : color) (flatFaces : bool) :
  position <> [] -> angles <> [] ->
  CylindricalVolume._setData self (Some position) radius height angles c
    flatFaces
  = let m :=
      mkMesh3D
        (flat_map
           (fun p => map (fun v => vadd v p)
                         (CylindricalVolume.volumeRows radius height angles))
           position)
        c
        (Some (flat_map
                 (fun _ => CylindricalVolume.normalRows radius height angles
                             flatFaces)
                 position))
        "triangles" in
    Ok (mkItem (MeshObj m) [m]).
Proof.
  intros Hp Ha. rewrite setData_mesh by assumption. cbv zeta.
  rewrite <- (volumeRows_length radius height angles).
  now rewrite tiled_translation, tileRows_flat_map.
Qed.

(** X10.  [_setData] builds one copy of the volume per position: the
    vertex buffer is, position after position, the rows of the volume
    translated by that position, and the normal buffer repeats the normals
    of the volume unchanged; the mesh is drawn as triangles with the color
    given and it is the only child of the scene primitive. *)
Theorem setData_translated_copies (self : item3D) (position : list vec3)
    (radius height : R) (angles : list R) (c : color) (flatFaces : bool) :
  position <> [] -> angles <> [] ->
  exists m,
    CylindricalVolume._setData self (Some position) radius height angles c
      flatFaces = Ok (mkItem (MeshObj m) [m])
    /\ positionAttr m
       = flat_map
           (fun p => map (fun v => vadd v p)
                         (CylindricalVolume.volumeRows radius height angles))
           position
    /\ normalAttr m
       = Some (flat_map
                 (fun _ => CylindricalVolume.normalRows radius height angles
                             flatFaces)
                 position)
    /\ colorAttr m = c
    /\ drawMode m = "triangles"%string.
Proof.
  intros Hp Ha. rewrite setData_instances by assumption. cbv zeta.
  eexists. split; [reflexivity|]. cbn. auto.
Qed.

Lemma setData_translated_copies_witness :
  exists m,
    CylindricalVolume._setData init
      (Some [mkVec 0 0 0; mkVec 5 0 0]) 1 1 [0; PI] [1; 1; 1] true
    = Ok (mkItem (MeshObj m) [m])
    /\ nth 12 (positionAttr m) vzero
       = vadd (nth 0 (CylindricalVolume.volumeRows 1 1 [0; PI]) vzero)
              (mkVec 5 0 0).
Proof.
  destruct (setData_translated_copies init [mkVec 0 0 0; mkVec 5 0 0]
              1 1 [0; PI] [1; 1; 1] true)
    as (m & Hm & Hp & _); [discriminate | discriminate |].
  exists m. split; [exact Hm|]. rewrite Hp. reflexivity.
Defined.

Lemma in_sectorVolume (k : CylindricalVolume.corners) (v : vec3) :
  In v (CylindricalVolume.sectorVolume k) ->
  v = CylindricalVolume.c1 k \/ v = CylindricalVolume.c2 k
  \/ v = CylindricalVolume.c3 k \/ v = CylindricalVolume.c4 k
  \/ v = CylindricalVolume.c5 k \/ v = CylindricalVolume.c6 k.
Proof.
  unfold CylindricalVolume.sectorVolume. cbn [In].
  intros H. repeat (destruct H as [<- | H]; [tauto|]). contradiction.
Qed.

Lemma rim_on_circle (radius a : R) :
  (radius * cos a) * (radius * cos a) + (radius * sin a) * (radius * sin a)
  = radius * radius.
Proof.
  pose proof (sin2_cos2 a) as H. unfold Rsqr in H.
  replace (radius * radius) with (radius * radius * 1) by ring.
  rewrite <- H. ring.
Qed.

(** X11.  Every vertex [_setData] generates lies on the surface of the
    cylinder of its instance: it is at height [+ height / 2] or
    [- height / 2] from the position of the instance, and either on the
    axis (the two cap centres) or at distance [radius] from it. *)
Theorem setData_vertices_on_cylinder (self : item3D) (position : list vec3)
    (radius height : R) (angles : list R) (c : color) (flatFaces : bool) :
  position <> [] -> angles <> [] ->
  exists m,
    CylindricalVolume._setData self (Some position) radius height angles c
      flatFaces = Ok (mkItem (MeshObj m) [m])
    /\ forall v,
         In v (positionAttr m) ->
         exists p,
           In p position
           /\ (vz v - vz p = height / 2 \/ vz v - vz p = - height / 2)
           /\ ((vx v - vx p = 0 /\ vy v - vy p = 0)
               \/ (vx v - vx p) * (vx v - vx p)
                  + (vy v - vy p) * (vy v - vy p) = radius * radius).
Proof.
  intros Hp Ha. rewrite setData_instances by assumption. cbv zeta.
  eexists. split; [reflexivity|]. cbn [positionAttr].
  intros v Hv. apply in_flat_map in Hv. destruct Hv as (p & Hin & Hv).
  apply in_map_iff in Hv. destruct Hv as (u & <- & Hu).
  exists p. split; [exact Hin|].
  unfold CylindricalVolume.volumeRows in Hu.
  apply in_flat_map in Hu. destruct Hu as (i & _ & Hu).
  apply in_sectorVolume in Hu.
  unfold CylindricalVolume.sectorAt, CylindricalVolume.sectorCorners in Hu.
  cbn [CylindricalVolume.c1 CylindricalVolume.c2 CylindricalVolume.c3
       CylindricalVolume.c4 CylindricalVolume.c5 CylindricalVolume.c6] in Hu.
  destruct Hu as [-> | [-> | [-> | [-> | [-> | ->]]]]];
    unfold vadd; cbn [vx vy vz];
    (split; [first [left; lra | right; lra]|]);
    first [left; split; lra
          | right;
            match goal with
            | |- context [cos ?a] =>
                rewrite <- (rim_on_circle radius a); ring
            end].
Qed.

Lemma setData_vertices_on_cylinder_witness :
  exists m,
    CylindricalVolume._setData init (Some [mkVec 1 2 3]) 2 4 [0; PI / 2]
      [1; 1; 1] false = Ok (mkItem (MeshObj m) [m])
    /\ forall v,
         In v (positionAttr m) ->
         exists p,
           In p [mkVec 1 2 3]
           /\ (vz v - vz p = 4 / 2 \/ vz v - vz p = - 4 / 2)
           /\ ((vx v - vx p = 0 /\ vy v - vy p = 0)
               \/ (vx v - vx p) * (vx v - vx p)
                  + (vy v - vy p) * (vy v - vy p) = 2 * 2).
Proof.
  apply (setData_vertices_on_cylinder init [mkVec 1 2 3] 2 4 [0; PI / 2]
           [1; 1; 1] false); discriminate.
Defined.

Lemma cos_shift (a : R) : cos (a + 2 * PI) = cos a.
Proof. rewrite cos_plus, cos_2PI, sin_2PI. ring. Qed.

Lemma sin_shift (a : R) : sin (a + 2 * PI) = sin a.
Proof. rewrite sin_plus, cos_2PI, sin_2PI. ring. Qed.

(** X14.  Without flat faces, the normal of each of the six side-wall
    vertices of a sector is the radial vector of that vertex: its
    horizontal part, of squared length [radius * radius]. *)
Theorem smooth_side_normals_are_radial (radius height a0 a1 : R) :
  let k := CylindricalVolume.sectorCorners radius height a0 a1 in
  Forall
    (fun i =>
       let v := nth i (CylindricalVolume.sectorVolume k) vzero in
       let n := nth i (CylindricalVolume.sectorNormal false k) vzero in
       n = mkVec (vx v) (vy v) 0
       /\ vx n * vx n + vy n * vy n = radius * radius)
    [3; 4; 5; 6; 7; 8]%nat.
Proof.
  intros k. subst k.
  repeat (apply Forall_cons;
          [cbn; split; [vec_eq | apply rim_on_circle ||
                                 (rewrite <- (rim_on_circle radius a0); ring) ||
                                 (rewrite <- (rim_on_circle radius a1); ring)]|]).
  apply Forall_nil.
Qed.

(** X15.  With flat faces the normals of a sector are: for the bottom cap
    [(0, 0, - r^2 sin(a1 - a0))], for the top cap (its vertices [c4] and
    [c6]) [(0, 0, r^2 sin(a1 - a0))], and for the six side-wall vertices the
    horizontal vector [h r (sin a1 - sin a0, cos a0 - cos a1, 0)].  Hence
    for a positive radius and height and an angle step between 0 and pi the
    bottom normal points down, the top one up, and the side normal away
    from the axis (its product with the radial direction of either rim
    edge is positive). *)
Theorem flat_normals_point_outward (radius height a0 a1 : R) :
  let N := CylindricalVolume.sectorNormal true
             (CylindricalVolume.sectorCorners radius height a0 a1) in
  Forall (fun i => nth i N vzero
                   = mkVec 0 0 (- (radius * radius * sin (a1 - a0))))
         [0; 1; 2]%nat
  /\ Forall (fun i => nth i N vzero
                      = mkVec 0 0 (radius * radius * sin (a1 - a0)))
            [9; 11]%nat
  /\ Forall (fun i => nth i N vzero
                      = mkVec (height * radius * (sin a1 - sin a0))
                              (height * radius * (cos a0 - cos a1)) 0)
            [3; 4; 5; 6; 7; 8]%nat
  /\ (0 < radius -> 0 < height -> 0 < a1 - a0 < PI ->
      vz (nth 0 N vzero) < 0
      /\ 0 < vz (nth 9 N vzero)
      /\ 0 < vx (nth 3 N vzero) * cos a0 + vy (nth 3 N vzero) * sin a0
      /\ 0 < vx (nth 3 N vzero) * cos a1 + vy (nth 3 N vzero) * sin a1).
Proof.
  intros N. subst N.
  split; [|split; [|split]].
  - repeat (apply Forall_cons; [cbn; rewrite sin_minus; vec_eq|]).
    apply Forall_nil.
  - repeat (apply Forall_cons; [cbn; rewrite sin_minus; vec_eq|]).
    apply Forall_nil.
  - repeat (apply Forall_cons;
            [cbn; unfold cross, vsub; cbn [vx vy vz]; f_equal; field|]).
    apply Forall_nil.
  - intros Hr Hh Ha.
    pose proof (sin_gt_0 (a1 - a0) (proj1 Ha) (proj2 Ha)) as Hs.
    assert (Hrr : 0 < radius * radius) by now apply Rmult_lt_0_compat.
    assert (Hhr : 0 < height * radius) by now apply Rmult_lt_0_compat.
    pose proof (Rmult_lt_0_compat _ _ Hrr Hs) as H1.
    pose proof (Rmult_lt_0_compat _ _ Hhr Hs) as H2.
    rewrite sin_minus in H1, H2.
    cbn. repeat split; [lra | lra | |].
    + replace (_ + _)
        with (height * radius * (sin a1 * cos a0 - cos a1 * sin a0)) by field.
      exact H2.
    + replace (_ + _)
        with (height * radius * (sin a1 * cos a0 - cos a1 * sin a0)) by field.
      exact H2.
Qed.

Lemma flat_normals_point_outward_witness :
  vz (nth 0 (CylindricalVolume.sectorNormal true
               (CylindricalVolume.sectorCorners 1 1 0 (PI / 2))) vzero) < 0
  /\ 0 < vz (nth 9 (CylindricalVolume.sectorNormal true
                      (CylindricalVolume.sectorCorners 1 1 0 (PI / 2)))
                vzero).
Proof.
  destruct (flat_normals_point_outward 1 1 0 (PI / 2)) as (_ & _ & _ & H).
  destruct H as (H0 & H9 & _).
  - lra.
  - lra.
  - pose proof PI_RGT_0. lra.
  - split; assumption.
Defined.

End MoreMeshFacts.

(** *** The box of any positive size *)

Section BoxGeometry.
Local Open Scope R_scope.

Variables sx sy : R.
Hypothesis Hsx : 0 < sx.
Hypothesis Hsy : 0 < sy.

Let d := sqrt (sx * sx + sy * sy).
Let u := sy / d.
Let v := sx / d.
Let a := asin u.
Let b := asin v.

Lemma diagonal_pos : 0 < d.
Proof. apply sqrt_lt_R0. nra. Qed.

Lemma diagonal_sq : d * d = sx * sx + sy * sy.
Proof. apply sqrt_def. nra. Qed.

Lemma uv_unit : u * u + v * v = 1.
Proof.
  pose proof diagonal_pos as Hd. pose proof diagonal_sq as Hq.
  unfold u, v.
  replace (sy / d * (sy / d) + sx / d * (sx / d))
    with ((sx * sx + sy * sy) / (d * d)) by (field; lra).
  rewrite <- Hq. field. lra.
Qed.

Lemma u_pos : 0 < u.
Proof. apply Rdiv_lt_0_compat; [exact Hsy | exact diagonal_pos]. Qed.

Lemma v_pos : 0 < v.
Proof. apply Rdiv_lt_0_compat; [exact Hsx | exact diagonal_pos]. Qed.

Lemma u_range : -1 <= u <= 1.
Proof. pose proof uv_unit. pose proof u_pos. pose proof v_pos. nra. Qed.

Lemma v_range : -1 <= v <= 1.
Proof. pose proof uv_unit. pose proof u_pos. pose proof v_pos. nra. Qed.

Lemma sin_a : sin a = u.
Proof. apply sin_asin, u_range. Qed.

Lemma sin_b : sin b = v.
Proof. apply sin_asin, v_range. Qed.

Lemma cos_a : cos a = v.
Proof.
  unfold a. rewrite cos_asin by apply u_range.
  pose proof uv_unit. pose proof v_pos.
  apply sqrt_lem_1; unfold Rsqr; nra.
Qed.

Lemma cos_b : cos b = u.
Proof.
  unfold b. rewrite cos_asin by apply v_range.
  pose proof uv_unit. pose proof u_pos.
  apply sqrt_lem_1; unfold Rsqr; nra.
Qed.

Lemma cos_a2b : cos (a + 2 * b) = - v.
Proof.
  rewrite cos_plus, cos_2a, sin_2a, sin_a, cos_a, sin_b, cos_b.
  replace (- v) with (- v * (u * u + v * v)) by (rewrite uv_unit; ring).
  ring.
Qed.

Lemma sin_a2b : sin (a + 2 * b) = u.
Proof.
  rewrite sin_plus, cos_2a, sin_2a, sin_a, cos_a, sin_b, cos_b.
  replace u with (u * (u * u + v * v)) at 5 by (rewrite uv_unit; ring).
  ring.
Qed.

Lemma cos_3a2b : cos (a + 2 * b + 2 * a) = - v.
Proof.
  rewrite cos_plus, cos_a2b, sin_a2b, cos_2a, sin_2a, sin_a, cos_a.
  replace (- v) with (- v * (u * u + v * v)) at 2 by (rewrite uv_unit; ring).
  ring.
Qed.

Lemma sin_3a2b : sin (a + 2 * b + 2 * a) = - u.
Proof.
  rewrite sin_plus, cos_a2b, sin_a2b, cos_2a, sin_2a, sin_a, cos_a.
  replace (- u) with (- u * (u * u + v * v)) by (rewrite uv_unit; ring).
  ring.
Qed.

Lemma half_diagonal_u : d / 2 * u = sy / 2.
Proof. pose proof diagonal_pos. unfold u. field. lra. Qed.

Lemma half_diagonal_v : d / 2 * v = sx / 2.
Proof. pose proof diagonal_pos. unfold v. field. lra. Qed.

(** The rows of the volume of a box: four sectors between the corners
    [(sx/2, -sy/2)], [(sx/2, sy/2)], [(-sx/2, sy/2)], [(-sx/2, -sy/2)]. *)
Lemma box_volumeRows (sz : R) :
  CylindricalVolume.volumeRows (sqrt (sx * sx + sy * sy) / 2) sz
    (Box.boxAngles (sx, sy, sz))
  = flat_map
      (fun s : (R * R) * (R * R) =>
         let '((x0, y0), (x1, y1)) := s in
         let c1 := mkVec 0 0 (- sz / 2) in
         let c2 := mkVec x0 y0 (- sz / 2) in
         let c3 := mkVec x1 y1 (- sz / 2) in
         let c4 := mkVec x0 y0 (sz / 2) in
         let c5 := mkVec x1 y1 (sz / 2) in
         let c6 := mkVec 0 0 (sz / 2) in
         [c1; c3; c2; c2; c3; c4; c3; c5; c4; c4; c5; c6])
      [((sx / 2, - (sy / 2)), (sx / 2, sy / 2));
       ((sx / 2, sy / 2), (- (sx / 2), sy / 2));
       ((- (sx / 2), sy / 2), (- (sx / 2), - (sy / 2)));
       ((- (sx / 2), - (sy / 2)), (sx / 2, - (sy / 2)))].
Proof.
  unfold Box.boxAngles, CylindricalVolume.volumeRows.
  change (sqrt (sx * sx + sy * sy)) with d.
  change (asin (sy / d)) with a. change (asin (sx / d)) with b.
  cbn -[Rmult Rdiv Rplus Rminus Ropp cos sin PI sqrt Rinv asin].
  replace (0 - / 2 * (2 * a)) with (- a) by lra.
  replace (2 * a - / 2 * (2 * a)) with a by lra.
  replace (2 * a + 2 * b - / 2 * (2 * a)) with (a + 2 * b) by lra.
  replace (2 * a + 2 * b + 2 * a - / 2 * (2 * a)) with (a + 2 * b + 2 * a)
    by lra.
  replace (2 * PI - / 2 * (2 * a)) with (- a + 2 * PI) by lra.
  rewrite cos_shift, sin_shift, cos_neg, sin_neg, cos_a2b, sin_a2b,
    cos_3a2b, sin_3a2b, cos_a, sin_a.
  replace (d / 2 * - v) with (- (d / 2 * v)) by ring.
  replace (d / 2 * - u) with (- (d / 2 * u)) by ring.
  rewrite half_diagonal_u, half_diagonal_v.
  reflexivity.
Qed.

End BoxGeometry.

Section BoxFacts.
Local Open Scope R_scope.

Ltac in_list := cbn [In]; repeat first [left; lra | right].
Ltac all_list :=
  repeat (apply Forall_cons; [lra|]); apply Forall_nil.

(** X16.  [Box.setData] with positive [sx] and [sy] builds, for each
    position, the box of size [(sx, sy, sz)] centred there: its vertices
    are the rows of [boxRows] (the corners [(+-sx/2, +-sy/2, +-sz/2)] and
    the centres of the two caps) translated by the position, 48 rows for
    each position. *)
Theorem box_vertices (self : item3D) (position : list vec3)
    (sx sy sz : R) (c : color) :
  0 < sx -> 0 < sy -> position <> [] ->
  exists m,
    Box.setData self position (sx, sy, sz) c = Ok (mkItem (MeshObj m) [m])
    /\ positionAttr m
       = flat_map (fun p => map (fun v => vadd v p)
                               (BoxShape.boxRows sx sy sz))
                  position
    /\ List.length (positionAttr m) = (List.length position * 48)%nat.
Proof.
  intros Hx Hy Hp. unfold Box.setData.
  destruct position as [|p0 ps] eqn:Epos; [contradiction|].
  rewrite <- Epos in *. clear Epos.
  rewrite setData_instances by (try assumption; discriminate). cbv zeta.
  eexists. split; [reflexivity|]. cbn [positionAttr].
  rewrite (box_volumeRows sx sy Hx Hy sz).
  split; [reflexivity|].
  apply flat_map_rows_length. intros p. reflexivity.
Qed.

Lemma box_vertices_witness :
  exists m,
    Box.setData init [mkVec 0 0 0; mkVec 10 0 0] (3, 4, 1) [1; 1; 1]
    = Ok (mkItem (MeshObj m) [m])
    /\ List.length (positionAttr m) = 96%nat
    /\ nth 1 (positionAttr m) vzero
       = vadd (mkVec (3 / 2) (4 / 2) (- 1 / 2)) (mkVec 0 0 0).
Proof.
  destruct (box_vertices init [mkVec 0 0 0; mkVec 10 0 0] 3 4 1 [1; 1; 1])
    as (m & Hm & Hp & Hl); [lra | lra | discriminate |].
  exists m. split; [exact Hm|]. split; [exact Hl|].
  rewrite Hp. reflexivity.
Defined.

(** X17.  The bounding box of a box of positive size [(sx, sy, sz)] with
    one center is the center minus and plus half the size. *)
Theorem box_bounding_box (self : item3D) (center : vec3)
    (sx sy sz : R) (c : color) :
  0 < sx -> 0 < sy -> 0 < sz ->
  exists m,
    Box.setData self [center] (sx, sy, sz) c = Ok (mkItem (MeshObj m) [m])
    /\ boundingBox (positionAttr m)
       = (vsub center (mkVec (sx / 2) (sy / 2) (sz / 2)),
          vadd center (mkVec (sx / 2) (sy / 2) (sz / 2))).
Proof.
  intros Hx Hy Hz. unfold Box.setData.
  rewrite setData_instances by discriminate. cbv zeta.
  eexists. split; [reflexivity|]. cbn [positionAttr].
  rewrite (box_volumeRows sx sy Hx Hy sz).
  unfold boundingBox, vsub, vadd.
  cbn [map flat_map app vx vy vz].
  f_equal; f_equal.
  - apply minimum_least; [in_list | all_list].
  - apply minimum_least; [in_list | all_list].
  - apply minimum_least; [in_list | all_list].
  - apply maximum_greatest; [in_list | all_list].
  - apply maximum_greatest; [in_list | all_list].
  - apply maximum_greatest; [in_list | all_list].
Qed.

Lemma box_bounding_box_witness :
  exists m,
    Box.setData init [mkVec 1 1 1] (3, 4, 5) [1; 1; 1]
    = Ok (mkItem (MeshObj m) [m])
    /\ boundingBox (positionAttr m)
       = (vsub (mkVec 1 1 1) (mkVec (3 / 2) (4 / 2) (5 / 2)),
          vadd (mkVec 1 1 1) (mkVec (3 / 2) (4 / 2) (5 / 2))).
Proof.
  apply (box_bounding_box init (mkVec 1 1 1) 3 4 5 [1; 1; 1]); lra.
Defined.

End BoxFacts.

(** * Properties of the curve legends widget *)

Section CurveLegendsFacts.
Import CurveLegends.

Lemma hasLegend_In (legend : string) (d : list (string * legendWidget)) :
  hasLegend legend d = true <-> In legend (keys d).
Proof.
  unfold hasLegend, keys. rewrite existsb_exists, in_map_iff.
  split; intros ((k, w) & H1 & H2).
  - exists (k, w). apply String.eqb_eq in H2. cbn in H2 |- *. now subst.
  - exists (k, w). cbn in H1 |- *. subst. split; [exact H2|].
    apply String.eqb_refl.
Qed.

Lemma hasLegend_false (legend : string) (d : list (string * legendWidget)) :
  hasLegend legend d = false <-> ~ In legend (keys d).
Proof.
  rewrite <- hasLegend_In.
  destruct (hasLegend legend d); split; intros H; congruence.
Qed.

(** What [_addLegend] does to the dict and to the layout. *)
Lemma addLegend_cases (h : heap) (self : widget) (legend : string) :
  let self' := _addLegend h self legend in
  _plotRef self' = _plotRef self
  /\ connected self' = connected self
  /\ ((_legends self' = _legends self
       /\ layoutWidgets self' = layoutWidgets self
       /\ (In legend (keys (_legends self))
           \/ forall plot, getPlotWidget h self = Some plot ->
                           getCurve plot legend = None))
      \/ (exists plot c,
             getPlotWidget h self = Some plot
             /\ getCurve plot legend = Some c
             /\ ~ In legend (keys (_legends self))
             /\ _legends self' = _legends self ++ [(legend, newLegendWidget c)]
             /\ layoutWidgets self'
                = layoutWidgets self ++ [newLegendWidget c])).
Proof.
  unfold _addLegend.
  destruct (hasLegend legend (_legends self)) eqn:Hh.
  - repeat split. left. repeat split. left. now apply hasLegend_In.
  - apply hasLegend_false in Hh.
    destruct (getPlotWidget h self) as [plot|] eqn:Hg.
    + destruct (getCurve plot legend) as [c|] eqn:Hc.
      * repeat split. right. exists plot, c. repeat split; assumption.
      * repeat split. left. repeat split. right.
        intros plot' E. injection E as <-. exact Hc.
    + repeat split. left. repeat split. right. intros plot' E. discriminate.
Qed.

(** X18.  [_addLegend] never loses or replaces a legend: every entry of
    the dict is kept, the keys stay distinct, the layout grows by exactly
    as many widgets as the dict, and afterwards [legend] is a key exactly
    when it was one before or the attached plot is alive and has a curve
    of that legend. *)
Theorem addLegend_keeps_legends (h : heap) (self : widget) (legend : string) :
  NoDup (keys (_legends self)) ->
  let self' := _addLegend h self legend in
  NoDup (keys (_legends self'))
  /\ (forall kv, In kv (_legends self) -> In kv (_legends self'))
  /\ (forall l, In l (keys (_legends self')) ->
                In l (keys (_legends self)) \/ l = legend)
  /\ (In legend (keys (_legends self'))
      <-> In legend (keys (_legends self))
          \/ exists plot c, getPlotWidget h self = Some plot
                            /\ getCurve plot legend = Some c)
  /\ (List.length (layoutWidgets self') + List.length (_legends self)
      = List.length (layoutWidgets self) + List.length (_legends self'))%nat.
Proof.
  intros Hnd self'.
  destruct (addLegend_cases h self legend)
    as (_ & _ & [(El & Ey & Hwhy) | (plot & c & Hg & Hc & Hnot & El & Ey)]);
    fold self' in El, Ey; rewrite El, Ey.
  - repeat split; auto.
    + intros [H | (plot & c & Hg & Hc)]; [exact H|].
      destruct Hwhy as [H | H]; [exact H|].
      rewrite (H plot Hg) in Hc. discriminate.
  - unfold keys. rewrite !map_app, !length_app. cbn [map fst List.length].
    repeat split.
    + apply NoDup_app; [exact Hnd | repeat constructor; auto | ].
      intros x Hx [<- | []]. now apply Hnot.
    + intros kv Hkv. apply in_or_app. now left.
    + intros l Hl. apply in_app_or in Hl.
      destruct Hl as [Hl | [<- | []]]; auto.
    + intros _. right. now exists plot, c.
    + intros _. apply in_or_app. right. now left.
    + lia.
Qed.

Lemma addLegend_keeps_legends_witness :
  let h : heap :=
    fun _ => Some (mkPlot ["a"%string]
                          (fun l => Some (mkCurve l true false))) in
  let self := mkWidget [] (Some 0%nat) true [] [] in
  keys (_legends (_addLegend h (_addLegend h self "a") "a")) = ["a"%string]
  /\ List.length (layoutWidgets (_addLegend h (_addLegend h self "a") "a"))
     = 1%nat.
Proof.
  intros h self.
  destruct (addLegend_keeps_legends h (_addLegend h self "a") "a")
    as (_ & _ & _ & _ & Hl); [repeat constructor; intros []|].
  split; [reflexivity|]. cbn in Hl |- *. lia.
Defined.

Lemma pop_missing (legend : string) (d : list (string * legendWidget)) :
  ~ In legend (keys d) -> pop legend d = (None, d).
Proof.
  induction d as [|[k w] d IH]; intros H; [reflexivity|].
  cbn [pop fst snd]. cbn [keys map fst In] in H.
  destruct (String.eqb_spec k legend) as [-> | Hne]; [tauto|].
  rewrite IH by tauto. reflexivity.
Qed.

Lemma pop_found (legend : string) (d : list (string * legendWidget)) :
  In legend (keys d) ->
  exists w d1 d2,
    d = d1 ++ (legend, w) :: d2
    /\ ~ In legend (keys d1)
    /\ pop legend d = (Some w, d1 ++ d2).
Proof.
  induction d as [|[k w] d IH]; intros H; [contradiction|].
  cbn [pop fst snd].
  destruct (String.eqb_spec k legend) as [-> | Hne].
  - exists w, [], d. repeat split. intros [].
  - destruct H as [H | H]; [cbn in H; congruence|].
    destruct (IH H) as (w' & d1 & d2 & -> & Hn & ->).
    exists w', ((k, w) :: d1), d2. repeat split.
    intros [E | E]; [cbn in E; congruence | contradiction].
Qed.

(** X19.  [_removeLegend] of a legend that is not displayed only logs a
    warning.  Of a displayed legend it removes the entry from the dict and
    then raises [NameError] (the name [idget] in
    [self.layout().removeWidget(idget)] is not defined): the other entries
    are kept, and the widget stays in the layout. *)
Theorem removeLegend_behaviour (self : widget) (legend : string) :
  (~ In legend (keys (_legends self)) ->
   _removeLegend self legend
   = (mkWidget (_legends self) (_plotRef self) (connected self)
               (layoutWidgets self)
               (log self ++ [("Unknown legend: " ++ legend)%string]),
      None))
  /\ (In legend (keys (_legends self)) ->
      NoDup (keys (_legends self)) ->
      exists self',
        _removeLegend self legend = (self', Some (NameError "idget"))
        /\ ~ In legend (keys (_legends self'))
        /\ (forall l, l <> legend ->
                      (In l (keys (_legends self'))
                       <-> In l (keys (_legends self))))
        /\ layoutWidgets self' = layoutWidgets self
        /\ _plotRef self' = _plotRef self
        /\ log self' = log self).
Proof.
  unfold _removeLegend. split.
  - intros H. now rewrite pop_missing.
  - intros H Hnd.
    destruct (pop_found legend (_legends self) H)
      as (w & d1 & d2 & Ed & Hn & ->).
    eexists. split; [reflexivity|]. cbn [_legends layoutWidgets _plotRef log].
    rewrite Ed in Hnd |- *. unfold keys in *.
    rewrite map_app in Hnd |- *. cbn [map fst] in Hnd.
    apply NoDup_remove in Hnd. rewrite map_app. destruct Hnd as [_ Hnot].
    split; [exact Hnot|]. split; [|auto].
    intros l Hne. split; intros Hl; apply in_app_or in Hl; apply in_or_app.
    + destruct Hl as [Hl | Hl]; [now left | right; now right].
    + cbn [map fst In] in Hl.
      destruct Hl as [Hl | [Hl | Hl]]; [now left | congruence | now right].
Qed.

Lemma removeLegend_behaviour_witness :
  let w := newLegendWidget (mkCurve "a" true false) in
  let self := mkWidget [("a"%string, w)] (Some 0%nat) true [w] [] in
  snd (_removeLegend self "b") = None
  /\ exists self',
       _removeLegend self "a" = (self', Some (NameError "idget"))
       /\ layoutWidgets self' = [w].
Proof.
  intros w self.
  destruct (removeLegend_behaviour self "b") as [H1 _].
  destruct (removeLegend_behaviour self "a") as [_ H2].
  split.
  - rewrite H1; [reflexivity|]. cbn. intros [E | []]. discriminate E.
  - destruct H2 as (self' & E & _ & _ & Hl & _).
    + cbn. now left.
    + repeat constructor. intros [].
    + exists self'. split; [exact E | exact Hl].
Defined.

(** Adding the legends of a list of curves, one after the other. *)
Lemma fold_addLegend (h : heap) (ref : nat) (p : plotWidget)
    (curves : list string) (s : widget) :
  h ref = Some p -> _plotRef s = Some ref ->
  NoDup (keys (_legends s)) ->
  let s' := fold_left (_addLegend h) curves s in
  _plotRef s' = Some ref
  /\ connected s' = connected s
  /\ NoDup (keys (_legends s'))
  /\ (forall l, In l (keys (_legends s'))
                <-> In l (keys (_legends s))
                    \/ (In l curves /\ getCurve p l <> None))
  /\ (List.length (layoutWidgets s') + List.length (_legends s)
      = List.length (layoutWidgets s) + List.length (_legends s'))%nat.
Proof.
  intros Hh. revert s.
  induction curves as [|legend curves IH]; intros s Hr Hnd; cbn [fold_left].
  - repeat split; auto. intros [H | [[] _]]. exact H.
  - assert (Hg : getPlotWidget h s = Some p)
      by (unfold getPlotWidget; now rewrite Hr, Hh).
    destruct (addLegend_cases h s legend)
      as (Er & Ec & [(El & Ey & Hwhy)
                    | (plot & c & Hg' & Hc & Hnot & El & Ey)]).
    + destruct (IH (_addLegend h s legend)) as (Hr' & Hc' & Hn' & Hk & Hlen);
        [congruence | now rewrite El |].
      rewrite El in Hk, Hlen. rewrite Ey in Hlen. rewrite Ec in Hc'.
      repeat split; try assumption.
      * intros Hl. apply Hk in Hl. cbn [In]. tauto.
      * intros [Hl | [[<- | Hl] Hcurve]]; apply Hk; auto.
        destruct Hwhy as [Hin | Hnone]; [now left|].
        rewrite (Hnone p Hg) in Hcurve. congruence.
    + rewrite Hg in Hg'. injection Hg' as <-.
      destruct (IH (_addLegend h s legend)) as (Hr' & Hc' & Hn' & Hk & Hlen).
      * congruence.
      * rewrite El. unfold keys. rewrite map_app. cbn [map fst].
        apply NoDup_app; [exact Hnd | repeat constructor; auto |].
        intros x Hx [<- | []]. now apply Hnot.
      * rewrite El in Hk, Hlen. rewrite Ey in Hlen. rewrite Ec in Hc'.
        unfold keys in Hk. rewrite length_app in Hlen.
        cbn [List.length] in Hlen.
        repeat split; try assumption.
        -- intros Hl. apply Hk in Hl. rewrite map_app in Hl.
           cbn [map fst] in Hl. cbn [In].
           destruct Hl as [Hl | Hl]; [|tauto].
           apply in_app_or in Hl. destruct Hl as [Hl | [<- | []]]; [tauto|].
           right. split; [now left | congruence].
        -- intros Hl. apply Hk. rewrite map_app. cbn [map fst].
           destruct Hl as [Hl | [[<- | Hl] Hcurve]].
           ++ left. apply in_or_app. now left.
           ++ left. apply in_or_app. right. now left.
           ++ right. tauto.
        -- rewrite length_app in Hlen. cbn [List.length] in Hlen. lia.
Qed.

(** X20.  Attaching a plot to a widget that has no live plot and shows no
    legend succeeds: the widget then refers to the plot, is connected to
    it, and shows one legend for each curve the plot returns that
    [getCurve] finds, without duplicates, with one more widget in the
    layout for each. *)
Theorem setPlotWidget_attach (h : heap) (self : widget) (ref : nat)
    (p : plotWidget) :
  getPlotWidget h self = None ->
  _legends self = [] ->
  h ref = Some p ->
  exists self',
    setPlotWidget h self (Some ref) = (self', None)
    /\ _plotRef self' = Some ref
    /\ connected self' = true
    /\ NoDup (keys (_legends self'))
    /\ (forall l, In l (keys (_legends self'))
                  <-> In l (getAllCurves p) /\ getCurve p l <> None)
    /\ List.length (layoutWidgets self')
       = (List.length (layoutWidgets self)
          + List.length (_legends self'))%nat.
Proof.
  intros Hg He Hh. unfold setPlotWidget. rewrite Hg, Hh.
  cbn [_legends _plotRef connected layoutWidgets log]. rewrite He.
  eexists. split; [reflexivity|].
  destruct (fold_addLegend h ref p (getAllCurves p)
              (mkWidget [] (Some ref) true
                        (layoutWidgets self) (log self)) Hh eq_refl)
    as (Hr & Hc & Hn & Hk & Hlen).
  { constructor. }
  cbn [_legends connected layoutWidgets] in Hc, Hk, Hlen.
  cbn [keys map In List.length] in Hk, Hlen.
  repeat split; try assumption.
  - apply Hk in H. tauto.
  - apply Hk in H. tauto.
  - intros H. apply Hk. tauto.
  - lia.
Qed.

Lemma setPlotWidget_attach_witness :
  let p := mkPlot ["a"; "b"; "a"]%string
             (fun l => if String.eqb l "b" then None
                       else Some (mkCurve l true false)) in
  exists self',
    setPlotWidget (fun _ => Some p) init (Some 0%nat) = (self', None)
    /\ (In "a"%string (keys (_legends self')))
    /\ ~ In "b"%string (keys (_legends self'))
    /\ List.length (layoutWidgets self') = List.length (_legends self').
Proof.
  intros p.
  destruct (setPlotWidget_attach (fun _ => Some p) init 0%nat p
              eq_refl eq_refl eq_refl)
    as (self' & E & _ & _ & _ & Hk & Hl).
  exists self'. split; [exact E|]. split; [|split].
  - apply Hk. split; [now left | discriminate].
  - intros H. apply Hk in H. destruct H as [_ H]. now apply H.
  - exact Hl.
Defined.

(** X21.  Once legends are displayed for a live plot, [setPlotWidget]
    cannot detach or replace the plot: it disconnects from the plot, the
    removal of the first legend raises [NameError], and the widget is left
    referring to the same plot with that legend gone from the dict but all
    widgets still in the layout. *)
Theorem setPlotWidget_replace_fails (h : heap) (self : widget)
    (previous : plotWidget) (plot : option nat) :
  getPlotWidget h self = Some previous ->
  _legends self <> [] ->
  exists self',
    setPlotWidget h self plot = (self', Some (NameError "idget"))
    /\ _plotRef self' = _plotRef self
    /\ connected self' = false
    /\ _legends self' = tl (_legends self)
    /\ layoutWidgets self' = layoutWidgets self.
Proof.
  intros Hg Hne. unfold setPlotWidget. rewrite Hg.
  destruct (_legends self) as [|[k w] d] eqn:Ed; [congruence|].
  cbn [keys map fst removeAll]. unfold _removeLegend.
  cbn [_legends pop fst snd]. rewrite String.eqb_refl.
  eexists. split; [reflexivity|]. cbn. auto.
Qed.

Lemma setPlotWidget_replace_fails_witness :
  let p := mkPlot ["a"%string] (fun l => Some (mkCurve l true false)) in
  let h : heap := fun _ => Some p in
  exists attached self',
    setPlotWidget h init (Some 0%nat) = (attached, None)
    /\ setPlotWidget h attached None = (self', Some (NameError "idget"))
    /\ _plotRef self' = Some 0%nat.
Proof.
  intros p h.
  exists (fst (setPlotWidget h init (Some 0%nat))).
  destruct (setPlotWidget_replace_fails h
              (fst (setPlotWidget h init (Some 0%nat))) p None eq_refl)
    as (self' & E & Hr & _); [discriminate|].
  exists self'. split; [reflexivity|]. split; [exact E | exact Hr].
Defined.

End CurveLegendsFacts.
